(** * LogiFlow backend: quotes, bookings and tracking

  A shallow embedding of [src/main.py] and [src/schemas.py].

  - Python [float]s are IEEE 754 binary64 values; they are modelled by the
    standard library's [spec_float] with the binary64 operations of
    [SpecFloat] (round to nearest, ties to even).
  - Handlers run in a small state-and-exception monad over a [World]: the
    document store handle, the clock, the random source and the trace of
    the steps executed so far.
  - [list.sort] is modelled after CPython's implementation for lists of
    fewer than 64 items (one natural run extended by binary insertion),
    including what it leaves behind when a comparison raises. *)

From Stdlib Require Import ZArith Lia List String Ascii Bool PeanoNat.
From Stdlib Require Import Sorting.Permutation Sorting.Sorted.
From Stdlib Require Import Floats.SpecFloat Floats.PrimFloat Floats.FloatOps.
Import ListNotations.

Local Open Scope string_scope.
Local Open Scope list_scope.
Local Open Scope Z_scope.

(** ** Python floats *)

Module PyFloat.

Definition float : Type := spec_float.

Definition prec : Z := 53.
Definition emax : Z := 1024.

Definition fadd : float -> float -> float := SFadd prec emax.
Definition fmul : float -> float -> float := SFmul prec emax.
Definition fdiv : float -> float -> float := SFdiv prec emax.
Definition flt : float -> float -> bool := SFltb.
Definition fle : float -> float -> bool := SFleb.

(** [float(z)] for a Python int [z]; exact when [|z| < 2^53]. *)
Definition of_int (z : Z) : float := binary_normalize prec emax z 0 false.

(** A decimal literal [num/den] denotes the binary64 value nearest to it;
    [num] and [den] are below [2^53], so the division rounds once. *)
Definition literal (num den : Z) : float := fdiv (of_int num) (of_int den).

Definition fzero : float := S754_zero false.

(** [x > 0] as pydantic's [gt=0] evaluates it ([False] on NaN). *)
Definition gt0 (x : float) : bool := flt fzero x.
(** [x <= 0] ([False] on NaN). *)
Definition le0 (x : float) : bool := fle x fzero.

(** [hundredths m e] is [m * 2^e * 100] rounded to an integer, ties to
    even: the digits [float.__round__] asks of the decimal conversion. *)
Definition hundredths (m : positive) (e : Z) : Z :=
  if 0 <=? e then 100 * Zpos m * 2 ^ e
  else
    let d := 2 ^ (- e) in
    let q := (100 * Zpos m) / d in
    let r := (100 * Zpos m) mod d in
    match 2 * r ?= d with
    | Lt => q
    | Gt => q + 1
    | Eq => if Z.even q then q else q + 1
    end.

(** [round(x, 2)]: infinities and NaN round to themselves; a finite [x] is
    rounded to two decimals (ties to even, on the exact binary value) and
    the decimal is converted back to the nearest binary64. *)
Definition round2 (x : float) : float :=
  match x with
  | S754_finite s m e =>
      match hundredths m e with
      | Zpos n => fdiv (S754_finite s n 0) (of_int 100)
      | _ => S754_zero s
      end
  | _ => x
  end.

End PyFloat.

Import PyFloat.

(** Sign and magnitude classes used to bound the price. *)

Definition nonneg (x : float) : Prop :=
  match x with
  | S754_zero false | S754_infinity false | S754_finite false _ _ => True
  | _ => False
  end.

Definition is_pos (x : float) : Prop :=
  match x with
  | S754_infinity false | S754_finite false _ _ => True
  | _ => False
  end.

(** [at_least k x]: [x] is [+inf] or a positive finite float of magnitude at
    least [2^(k-1)]. *)
Definition at_least (k : Z) (x : float) : Prop :=
  match x with
  | S754_infinity false => True
  | S754_finite false m e => k <= Zpos (digits2_pos m) + e
  | _ => False
  end.

Declare Scope pyfloat_scope.
Delimit Scope pyfloat_scope with pf.
Infix "+" := fadd : pyfloat_scope.
Infix "*" := fmul : pyfloat_scope.

(** ** Documents: loosely typed key-value records *)

Inductive value :=
| VNone
| VStr (s : string)
| VInt (z : Z)
| VFloat (x : float)
| VDatetime (t : Z). (* naive UTC datetime, in microseconds *)

Definition Document : Type := list (string * value).

(** [d[k]] as an option, and [d.get(k)], which is [None] for an absent key. *)
Fixpoint lookup {V : Type} (d : list (string * V)) (k : string) : option V :=
  match d with
  | [] => None
  | (k', v) :: d' => if String.eqb k' k then Some v else lookup d' k
  end.

Definition dict_get {V : Type} (d : list (string * V)) (k : string) (default : V) : V :=
  match lookup d k with
  | Some v => v
  | None => default
  end.

Definition get (d : Document) (k : string) : value := dict_get d k VNone.

Definition float_eqb (x y : float) : bool :=
  match x, y with
  | S754_zero s, S754_zero s' => Bool.eqb s s'
  | S754_infinity s, S754_infinity s' => Bool.eqb s s'
  | S754_nan, S754_nan => true
  | S754_finite s m e, S754_finite s' m' e' =>
      Bool.eqb s s' && Pos.eqb m m' && Z.eqb e e'
  | _, _ => false
  end.

Definition value_eqb (a b : value) : bool :=
  match a, b with
  | VNone, VNone => true
  | VStr s, VStr s' => String.eqb s s'
  | VInt z, VInt z' => Z.eqb z z'
  | VFloat x, VFloat x' => float_eqb x x'
  | VDatetime t, VDatetime t' => Z.eqb t t'
  | _, _ => false
  end.

(** The exact value of a finite float, scaled to an integer, against an
    integer scaled alike: Python compares an int with a float exactly. *)
Definition int_lt_float (z : Z) (x : float) : bool :=
  match x with
  | S754_nan => false
  | S754_infinity s => negb s
  | S754_zero _ => z <? 0
  | S754_finite s m e =>
      let v := if s then Zneg m else Zpos m in
      if 0 <=? e then z <? v * 2 ^ e else z * 2 ^ (- e) <? v
  end.

Definition float_lt_int (x : float) (z : Z) : bool :=
  match x with
  | S754_nan => false
  | S754_infinity s => s
  | S754_zero _ => 0 <? z
  | S754_finite s m e =>
      let v := if s then Zneg m else Zpos m in
      if 0 <=? e then v * 2 ^ e <? z else v <? z * 2 ^ (- e)
  end.

(** [a < b] on document values; [None] stands for the [TypeError] Python
    raises when the two types are not ordered against each other. *)
Definition py_lt (a b : value) : option bool :=
  match a, b with
  | VStr s, VStr s' => Some (String.ltb s s')
  | VInt z, VInt z' => Some (z <? z')
  | VFloat x, VFloat x' => Some (flt x x')
  | VInt z, VFloat x => Some (int_lt_float z x)
  | VFloat x, VInt z => Some (float_lt_int x z)
  | VDatetime t, VDatetime t' => Some (t <? t')
  | _, _ => None
  end.

(** ** The world a handler runs in *)

Inductive exn :=
| HTTPException (status_code : Z) (detail : string)
| ValidationError (model : string) (fields : list string)
| StorageUnavailable.

Inductive result (A : Type) :=
| Ok (a : A)
| Raise (e : exn).
Arguments Ok {A} a.
Arguments Raise {A} e.

Record Database := mkDatabase {
  collections : list (string * list Document);
  next_id : nat
}.

(** The steps of a handler that the claims speak about, in program order. *)
Inductive Step :=
| SPrice (price : float)
| SEta (eta : Z)
| SInsert (collection_name : string) (doc : Document).

Record World := mkWorld {
  db : option Database;          (* [None]: [db is None], no store configured *)
  utcnow : Z;                    (* what [datetime.utcnow()] reads *)
  rng : nat -> nat;              (* the outcomes of the random source *)
  drawn : nat;                   (* how many outcomes were consumed *)
  trace : list Step
}.

Definition M (A : Type) : Type := World -> result A * World.

Definition ret {A} (a : A) : M A := fun w => (Ok a, w).
Definition raise {A} (e : exn) : M A := fun w => (Raise e, w).
Definition bind {A B} (m : M A) (k : A -> M B) : M B :=
  fun w =>
    match m w with
    | (Ok a, w') => k a w'
    | (Raise e, w') => (Raise e, w')
    end.
Definition lift {A} (r : result A) : M A := fun w => (r, w).

Declare Scope handler_scope.
Delimit Scope handler_scope with handler.
Notation "x <- m ;; k" := (bind m (fun x => k))
  (at level 61, m at next level, right associativity) : handler_scope.
Notation "m ;; k" := (bind m (fun _ => k))
  (at level 61, right associativity) : handler_scope.

Definition with_trace (w : World) (t : list Step) : World :=
  mkWorld (db w) (utcnow w) (rng w) (drawn w) t.
Definition with_db (w : World) (d : option Database) : World :=
  mkWorld d (utcnow w) (rng w) (drawn w) (trace w).
Definition with_drawn (w : World) (n : nat) : World :=
  mkWorld (db w) (utcnow w) (rng w) n (trace w).

Definition record (s : Step) : M unit :=
  fun w => (Ok tt, with_trace w (trace w ++ [s])).

(** An assignment whose evaluation is recorded in the trace. *)
Definition eval {A} (tag : A -> Step) (a : A) : M A :=
  bind (record (tag a)) (fun _ => ret a).

(** ** The document store adapter *)

Class Entity (E : Type) := { model_dump : E -> Document }.

Definition find_collection (d : Database) (name : string) : list Document :=
  dict_get (collections d) name [].

Fixpoint append_to (cs : list (string * list Document)) (name : string) (doc : Document)
  : list (string * list Document) :=
  match cs with
  | [] => [(name, [doc])]
  | (n, docs) :: cs' =>
      if String.eqb n name then (n, docs ++ [doc]) :: cs'
      else (n, docs) :: append_to cs' name doc
  end.

Definition insert_one (d : Database) (name : string) (doc : Document) : Database :=
  mkDatabase (append_to (collections d) name doc) (S (next_id d)).

(** Modelled from the spec: [database.py] ([db], [create_document],
    [get_documents]) is not among the sources.  [create_document] serializes
    the entity's fields to a document, inserts it into the named collection
    and returns a generated identifier; it fails with [StorageUnavailable]
    when no store connection is configured. *)
Definition create_document {E} `{Entity E} (collection_name : string) (entity : E) : M nat :=
  fun w =>
    match db w with
    | None => (Raise StorageUnavailable, w)
    | Some d =>
        let doc := model_dump entity in
        (Ok (next_id d),
         with_trace (with_db w (Some (insert_one d collection_name doc)))
                    (trace w ++ [SInsert collection_name doc]))
    end.

Definition matches (filter doc : Document) : bool :=
  forallb (fun kv => match lookup doc (fst kv) with
                     | Some v => value_eqb v (snd kv)
                     | None => false
                     end) filter.

(** Modelled from the spec: [get_documents(collection_name, filter, limit=50)]
    returns up to [limit] matching documents, in store order, as loosely typed
    records; in degraded mode every persistence operation fails with
    [StorageUnavailable]. *)
Definition get_documents (collection_name : string) (filter : Document)
  (limit : option nat) : M (list Document) :=
  fun w =>
    match db w with
    | None => (Raise StorageUnavailable, w)
    | Some d =>
        let n := match limit with Some n => n | None => 50%nat end in
        (Ok (firstn n (List.filter (matches filter) (find_collection d collection_name))), w)
    end.

(** ** Schemas ([schemas.py]) *)

Definition modes : list string := ["air"; "sea"; "road"].
Definition statuses : list string :=
  ["created"; "booked"; "in_transit"; "customs"; "out_for_delivery"; "delivered"].

(** A [Literal[...]] field accepts exactly the listed strings. *)
Definition is_literal (allowed : list string) (s : string) : bool :=
  existsb (String.eqb s) allowed.

Definition check (ok : bool) (field : string) : list string :=
  if ok then [] else [field].

(** A constructor collects the fields that fail and raises once. *)
Definition validated {A} (model : string) (errors : list string) (a : A) : result A :=
  match errors with
  | [] => Ok a
  | _ => Raise (ValidationError model errors)
  end.

Definition opt_value (o : option string) : value :=
  match o with
  | Some s => VStr s
  | None => VNone
  end.

Module Quote.
Record t := mk {
  origin : string;
  destination : string;
  mode : string;
  weight_kg : float;
  volume_cbm : float;
  price_usd : float;
  eta_days : Z
}.

Definition new (origin destination : string) (mode : option string)
  (weight_kg volume_cbm price_usd : float) (eta_days : Z) : result t :=
  let mode := match mode with Some m => m | None => "sea" end in
  validated "Quote"
    (check (is_literal modes mode) "mode"
     ++ check (gt0 weight_kg) "weight_kg"
     ++ check (gt0 volume_cbm) "volume_cbm"
     ++ check (gt0 price_usd) "price_usd"
     ++ check (0 <? eta_days) "eta_days")
    (mk origin destination mode weight_kg volume_cbm price_usd eta_days).

#[global] Instance entity : Entity t :=
  {| model_dump q :=
       [("origin", VStr (origin q)); ("destination", VStr (destination q));
        ("mode", VStr (mode q)); ("weight_kg", VFloat (weight_kg q));
        ("volume_cbm", VFloat (volume_cbm q)); ("price_usd", VFloat (price_usd q));
        ("eta_days", VInt (eta_days q))] |}.
End Quote.

Module Shipment.
Record t := mk {
  tracking_number : string;
  origin : string;
  destination : string;
  mode : string;
  weight_kg : float;
  volume_cbm : float;
  shipper_name : string;
  shipper_email : string;
  status : string;
  quote_id : option string
}.

Definition new (tracking_number origin destination : string) (mode : option string)
  (weight_kg volume_cbm : float) (shipper_name shipper_email : string)
  (status quote_id : option string) : result t :=
  let mode := match mode with Some m => m | None => "sea" end in
  let status := match status with Some s => s | None => "created" end in
  validated "Shipment"
    (check (is_literal modes mode) "mode"
     ++ check (gt0 weight_kg) "weight_kg"
     ++ check (gt0 volume_cbm) "volume_cbm"
     ++ check (is_literal statuses status) "status")
    (mk tracking_number origin destination mode weight_kg volume_cbm
        shipper_name shipper_email status quote_id).

#[global] Instance entity : Entity t :=
  {| model_dump s :=
       [("tracking_number", VStr (tracking_number s)); ("origin", VStr (origin s));
        ("destination", VStr (destination s)); ("mode", VStr (mode s));
        ("weight_kg", VFloat (weight_kg s)); ("volume_cbm", VFloat (volume_cbm s));
        ("shipper_name", VStr (shipper_name s)); ("shipper_email", VStr (shipper_email s));
        ("status", VStr (status s)); ("quote_id", opt_value (quote_id s))] |}.
End Shipment.

Module TrackingEvent.
Record t := mk {
  tracking_number : string;
  status : string;
  location : option string;
  note : option string;
  timestamp : Z
}.

(** [timestamp] defaults to [datetime.utcnow()] at construction. *)
Definition new (tracking_number status : string) (location note : option string)
  (timestamp : option Z) : M t :=
  fun w =>
    let ts := match timestamp with Some ts => ts | None => utcnow w end in
    (Ok (mk tracking_number status location note ts), w).

#[global] Instance entity : Entity t :=
  {| model_dump e :=
       [("tracking_number", VStr (tracking_number e)); ("status", VStr (status e));
        ("location", opt_value (location e)); ("note", opt_value (note e));
        ("timestamp", VDatetime (timestamp e))] |}.
End TrackingEvent.

(** ** Request bodies ([main.py]) *)

Module QuoteRequest.
Record t := mk {
  origin : string;
  destination : string;
  mode : string;
  weight_kg : float;
  volume_cbm : float
}.
End QuoteRequest.

Module BookShipmentRequest.
Record t := mk {
  origin : string;
  destination : string;
  mode : string;
  weight_kg : float;
  volume_cbm : float;
  shipper_name : string;
  shipper_email : string
}.
End BookShipmentRequest.

(** ** [list.sort(key=...)]

    CPython's sort of a list of fewer than 64 items: the keys are computed
    first; [count_run] finds the natural run the list starts with (reversed in
    place when strictly descending); [binarysort] then inserts each later item
    where a binary search on its key puts it.  A comparison that raises
    ([lt] returns [None]) aborts the sort and leaves the items as they were
    arranged at that moment. *)

Section ListSort.
Context {K V : Type}.
Variable lt : K -> K -> option bool.

Fixpoint run_descending (prev : K) (l : list (K * V)) : option nat :=
  match l with
  | [] => Some 0%nat
  | (k, _) :: l' =>
      match lt k prev with
      | None => None
      | Some true => option_map S (run_descending k l')
      | Some false => Some 0%nat
      end
  end.

Fixpoint run_ascending (prev : K) (l : list (K * V)) : option nat :=
  match l with
  | [] => Some 0%nat
  | (k, _) :: l' =>
      match lt k prev with
      | None => None
      | Some true => Some 0%nat
      | Some false => option_map S (run_ascending k l')
      end
  end.

(** The length of the run at the head of [a] and whether it descends. *)
Definition count_run (a : list (K * V)) : option (nat * bool) :=
  match a with
  | [] => Some (0%nat, false)
  | [_] => Some (1%nat, false)
  | (k0, _) :: ((k1, _) :: a') =>
      match lt k1 k0 with
      | None => None
      | Some true => option_map (fun n => (2 + n, true)%nat) (run_descending k1 a')
      | Some false => option_map (fun n => (2 + n, false)%nat) (run_ascending k1 a')
      end
  end.

(** The binary search of [binarysort]: where [pivot] belongs in [a[l:r]]. *)
Fixpoint bisect (fuel : nat) (pivot : K) (a : list (K * V)) (l r : nat) : option nat :=
  match fuel with
  | O => Some l
  | S fuel' =>
      if (l <? r)%nat then
        let p := (l + (r - l) / 2)%nat in
        match nth_error a p with
        | None => Some l
        | Some (kp, _) =>
            match lt pivot kp with
            | None => None
            | Some true => bisect fuel' pivot a l p
            | Some false => bisect fuel' pivot a (S p) r
            end
        end
      else Some l
  end.

(** [binarysort sorted rest]: [sorted] is the part already in order, [rest]
    the items still to insert.  The flag is [false] when a comparison raised. *)
Fixpoint binarysort (sorted rest : list (K * V)) : bool * list (K * V) :=
  match rest with
  | [] => (true, sorted)
  | pivot :: rest' =>
      match bisect (List.length sorted) (fst pivot) sorted 0 (List.length sorted) with
      | None => (false, sorted ++ pivot :: rest')
      | Some l => binarysort (firstn l sorted ++ pivot :: skipn l sorted) rest'
      end
  end.

Definition sort_keyed (a : list (K * V)) : bool * list (K * V) :=
  if (List.length a <? 2)%nat then (true, a)
  else
    match count_run a with
    | None => (false, a)
    | Some (n, descending) =>
        let run := firstn n a in
        binarysort (if descending then rev run else run) (skipn n a)
    end.

End ListSort.

(** [l.sort(key=key)]: whether it returned normally, and [l] afterwards. *)
Definition list_sort {K V} (lt : K -> K -> option bool) (key : V -> K) (l : list V)
  : bool * list V :=
  let (ok, kvs) := sort_keyed lt (map (fun v => (key v, v)) l) in
  (ok, map snd kvs).

(** ** [random.choices] and the [string] constants *)

Definition ascii_uppercase : string := "ABCDEFGHIJKLMNOPQRSTUVWXYZ".
Definition digits : string := "0123456789".

(** [random.choices(population, k=k)]: [k] independent draws, each an index
    into the population taken from the next outcome of the random source. *)
Definition draws (w : World) (population : string) (k : nat) : list ascii :=
  let pop := list_ascii_of_string population in
  map (fun i => nth (rng w (drawn w + i)%nat mod List.length pop)%nat pop "000"%char)
      (seq 0 k).

Definition random_choices (population : string) (k : nat) : M (list ascii) :=
  fun w => (Ok (draws w population k), with_drawn w (drawn w + k)%nat).

(** The tracking number [book_shipment] generates in world [w]. *)
Definition tracking_of (w : World) : string :=
  ("LGF-" ++ string_of_list_ascii (draws w (ascii_uppercase ++ digits) 8))%string.

(** ** Handlers ([main.py]) *)

Local Open Scope handler_scope.

Definition read_root : M Document :=
  ret [("message", VStr "LogiFlow backend running")].

Definition _collection (name : string) : M (list Document) :=
  fun w =>
    match db w with
    | None => (Raise (HTTPException 500 "Database not configured"), w)
    | Some d => (Ok (find_collection d name), w)
    end.

Definition multipliers : list (string * float) :=
  [("sea", literal 10 10); ("road", literal 12 10); ("air", literal 20 10)].

Definition etas : list (string * Z) := [("sea", 21); ("road", 7); ("air", 3)].

(** The right-hand side of [price = round(...)] at [main.py:81]. *)
Definition price_of (mode : string) (weight_kg volume_cbm : float) : float :=
  let base := of_int 50 in
  let m := dict_get multipliers mode (literal 10 10) in
  round2 (base + m * (weight_kg * literal 8 10 + volume_cbm * of_int 20))%pf.

Definition eta_of (mode : string) : Z := dict_get etas mode 14.

Definition create_quote (payload : QuoteRequest.t) : M Quote.t :=
  price <- eval SPrice (price_of (QuoteRequest.mode payload)
                          (QuoteRequest.weight_kg payload)
                          (QuoteRequest.volume_cbm payload)) ;;
  eta <- eval SEta (eta_of (QuoteRequest.mode payload)) ;;
  quote <- lift (Quote.new (QuoteRequest.origin payload)
                   (QuoteRequest.destination payload)
                   (Some (QuoteRequest.mode payload))
                   (QuoteRequest.weight_kg payload)
                   (QuoteRequest.volume_cbm payload)
                   price eta) ;;
  qid <- create_document "quote" quote ;;
  ret quote.

Definition book_shipment (payload : BookShipmentRequest.t) : M Shipment.t :=
  chars <- random_choices (ascii_uppercase ++ digits)%string 8 ;;
  let tracking := ("LGF-" ++ string_of_list_ascii chars)%string in
  shipment <- lift (Shipment.new tracking
                      (BookShipmentRequest.origin payload)
                      (BookShipmentRequest.destination payload)
                      (Some (BookShipmentRequest.mode payload))
                      (BookShipmentRequest.weight_kg payload)
                      (BookShipmentRequest.volume_cbm payload)
                      (BookShipmentRequest.shipper_name payload)
                      (BookShipmentRequest.shipper_email payload)
                      None None) ;;
  create_document "shipment" shipment ;;
  event <- TrackingEvent.new tracking "created"
             (Some (BookShipmentRequest.origin payload)) None None ;;
  create_document "trackingevent" event ;;
  ret shipment.

Record TrackingResponse := mkTrackingResponse {
  tracking_number : string;
  events : list Document
}.

Definition get_tracking (tracking_number : string) : M TrackingResponse :=
  events <- get_documents "trackingevent"
              [("tracking_number", VStr tracking_number)] None ;;
  match events with
  | [] => raise (HTTPException 404 "Tracking number not found")
  | _ =>
      (* try: events.sort(...) except Exception: pass *)
      let events := snd (list_sort py_lt (fun e => get e "timestamp") events) in
      ret (mkTrackingResponse tracking_number events)
  end.

(** ** Listing handlers ([main.py]) *)

(** What pydantic makes of a loosely typed value given for a [str], [float]
    or [int] field.  How a value of another type is coerced or refused
    depends on the pydantic version, so the three conversions are a
    parameter; [lawful] fixes what every version does: a value of the
    field's own type is taken as it is, and [None] is refused. *)
Record Coercion := mkCoercion {
  as_str : value -> option string;
  as_float : value -> option float;
  as_int : value -> option Z
}.

Definition lawful (c : Coercion) : Prop :=
  (forall s, as_str c (VStr s) = Some s) /\ as_str c VNone = None /\
  (forall x, as_float c (VFloat x) = Some x) /\ as_float c VNone = None /\
  (forall z, as_int c (VInt z) = Some z) /\ as_int c VNone = None.

(** The conversions that accept a field's own type only. *)
Definition strict : Coercion :=
  mkCoercion (fun v => match v with VStr s => Some s | _ => None end)
             (fun v => match v with VFloat x => Some x | _ => None end)
             (fun v => match v with VInt z => Some z | _ => None end).

(** A [Literal[...]] field is never coerced. *)
Definition as_literal (allowed : list string) (v : value) : option string :=
  match v with
  | VStr s => if is_literal allowed s then Some s else None
  | _ => None
  end.

Definition checked {A} (field : string) (coerced : option A) (ok : A -> bool) : list string :=
  match coerced with
  | Some a => check (ok a) field
  | None => [field]
  end.

(** [Quote(origin=..., ...)] on loosely typed values, every argument given:
    a field fails on its type or, once converted, on its constraint. *)
Definition quote_of_values (c : Coercion)
  (origin destination mode weight_kg volume_cbm price_usd eta_days : value)
  : result Quote.t :=
  match as_str c origin, as_str c destination, as_literal modes mode,
        as_float c weight_kg, as_float c volume_cbm, as_float c price_usd,
        as_int c eta_days with
  | Some o, Some d, Some m, Some w, Some v, Some p, Some e =>
      Quote.new o d (Some m) w v p e
  | so, sd, sm, sw, sv, sp, se =>
      Raise (ValidationError "Quote"
               (checked "origin" so (fun _ => true)
                ++ checked "destination" sd (fun _ => true)
                ++ checked "mode" sm (fun _ => true)
                ++ checked "weight_kg" sw gt0
                ++ checked "volume_cbm" sv gt0
                ++ checked "price_usd" sp gt0
                ++ checked "eta_days" se (Z.ltb 0)))
  end.

Definition quote_of_document (c : Coercion) (d : Document) : result Quote.t :=
  quote_of_values c (get d "origin") (get d "destination") (get d "mode")
    (get d "weight_kg") (get d "volume_cbm") (get d "price_usd") (get d "eta_days").

(** The loop of [list_quotes]: the first document that fails raises. *)
Fixpoint quotes_of_documents (c : Coercion) (docs : list Document) : result (list Quote.t) :=
  match docs with
  | [] => Ok []
  | d :: docs' =>
      match quote_of_document c d with
      | Raise e => Raise e
      | Ok q =>
          match quotes_of_documents c docs' with
          | Raise e => Raise e
          | Ok qs => Ok (q :: qs)
          end
      end
  end.

(** The store adapter takes a count: a limit that is not positive asks for
    no document. *)
Definition list_quotes (c : Coercion) (limit : Z) : M (list Quote.t) :=
  (docs <- get_documents "quote" [] (Some (Z.to_nat limit)) ;;
   lift (quotes_of_documents c docs))%handler.

Definition list_shipments (limit : Z) : M (list Document) :=
  (docs <- get_documents "shipment" [] (Some (Z.to_nat limit)) ;;
   ret docs)%handler.

(** The seven fields [list_quotes] reads, and a document that holds a quote
    under them, whatever else it holds. *)
Definition quote_fields : list string :=
  ["origin"; "destination"; "mode"; "weight_kg"; "volume_cbm"; "price_usd"; "eta_days"].

Definition holds_quote (doc : Document) (q : Quote.t) : Prop :=
  forall k, In k quote_fields -> get doc k = get (model_dump q) k.

(** A quote that satisfies the constraints of the schema. *)
Definition valid_quote (q : Quote.t) : Prop :=
  In (Quote.mode q) ["air"; "sea"; "road"] /\
  gt0 (Quote.weight_kg q) = true /\ gt0 (Quote.volume_cbm q) = true /\
  gt0 (Quote.price_usd q) = true /\ 0 < Quote.eta_days q.

(** ** Diagnostics ([main.py], [GET /test]) *)

(** A Python [str] is held as its UTF-8 bytes: a character is a lead byte
    followed by its continuation bytes (those from 128 to 191). *)
Definition is_continuation (c : ascii) : bool :=
  let n := nat_of_ascii c in ((128 <=? n) && (n <? 192))%nat.

(** [len(s)], in characters. *)
Fixpoint str_len (s : string) : nat :=
  match s with
  | EmptyString => 0%nat
  | String c s' => if is_continuation c then str_len s' else S (str_len s')
  end.

(** [s[:n]]: the first [n] characters. *)
Fixpoint str_prefix (n : nat) (s : string) : string :=
  match s with
  | EmptyString => EmptyString
  | String c s' =>
      if is_continuation c then String c (str_prefix n s')
      else match n with
           | O => EmptyString
           | S n' => String c (str_prefix n' s')
           end
  end.

(** What reading [db.name] gives: no such attribute, a name, or an
    exception with its message. *)
Inductive Attribute :=
| Absent
| Present (name : string)
| Failing (message : string).

(** What the process and the store handle answer when [test_database]
    asks: the environment variable, the handle's name, and the collection
    names or the message of the exception the listing raised. *)
Record Probe := mkProbe {
  env_database_url : option string;
  db_name : Attribute;
  listing : string + list string
}.

Module Diagnostics.
Record t := mk {
  backend : string;
  database : string;
  database_url : option string;
  database_name : option string;
  connection_status : string;
  collections : list string
}.

Definition set_database (r : t) (v : string) : t :=
  mk (backend r) v (database_url r) (database_name r) (connection_status r) (collections r).
Definition set_database_url (r : t) (v : string) : t :=
  mk (backend r) (database r) (Some v) (database_name r) (connection_status r) (collections r).
Definition set_database_name (r : t) (v : string) : t :=
  mk (backend r) (database r) (database_url r) (Some v) (connection_status r) (collections r).
Definition set_connection_status (r : t) (v : string) : t :=
  mk (backend r) (database r) (database_url r) (database_name r) v (collections r).
Definition set_collections (r : t) (v : list string) : t :=
  mk (backend r) (database r) (database_url r) (database_name r) (connection_status r) v.
End Diagnostics.

(** Truth value of [os.getenv(...)]: unset and empty are both false. *)
Definition is_set (o : option string) : bool :=
  match o with
  | Some (String _ _) => true
  | _ => false
  end.

Definition test_database (p : Probe) : M Diagnostics.t :=
  fun w =>
    let response :=
      Diagnostics.mk "✅ Running" "❌ Not Available" None None "Not Connected" [] in
    match db w with
    | Some _ =>
        let response := Diagnostics.set_database response "✅ Available" in
        let response :=
          Diagnostics.set_database_url response
            (if is_set (env_database_url p) then "✅ Set" else "❌ Not Set") in
        match db_name p with
        | Failing message =>
            (* the outer handler *)
            (Ok (Diagnostics.set_database response
                   ("❌ Error: " ++ str_prefix 50 message)%string), w)
        | name =>
            let response :=
              Diagnostics.set_database_name response
                (match name with Present n => n | _ => "✅ Connected" end) in
            let response := Diagnostics.set_connection_status response "Connected" in
            match listing p with
            | inr names =>
                let response := Diagnostics.set_collections response (firstn 10 names) in
                (Ok (Diagnostics.set_database response "✅ Connected & Working"), w)
            | inl message =>
                (Ok (Diagnostics.set_database response
                       ("⚠️  Connected but Error: " ++ str_prefix 50 message)%string), w)
            end
        end
    | None =>
        (Ok (Diagnostics.set_database response "⚠️  Available but not initialized"), w)
    end.

(** ** Vocabulary of the statements *)

(** An upper-case letter or a digit, by character code. *)
Definition upper_or_digit (c : ascii) : bool :=
  let n := nat_of_ascii c in
  ((65 <=? n) && (n <=? 90) || (48 <=? n) && (n <=? 57))%nat.

(** [s] is empty or starts a character: its first byte is not a
    continuation byte. *)
Definition starts_character (s : string) : Prop :=
  match s with
  | EmptyString => True
  | String c _ => is_continuation c = false
  end.

(** Order of keyed items by the rank of their keys. *)
Definition key_le {K V : Type} (rank : K -> Z) (x y : K * V) : Prop :=
  rank (fst x) <= rank (fst y).

(** The filter [get_tracking] passes to the store. *)
Definition by_tracking_number (x : string) : Document -> bool :=
  matches [("tracking_number", VStr x)].

(** The datetime under [timestamp], for documents that carry one. *)
Definition timestamp_of (doc : Document) : Z :=
  match get doc "timestamp" with
  | VDatetime t => t
  | _ => 0
  end.

Definition has_timestamp (doc : Document) : Prop :=
  exists t, get doc "timestamp" = VDatetime t.

(** Every stored tracking event carries a datetime. *)
Definition events_dated (w : World) : Prop :=
  forall d, db w = Some d -> Forall has_timestamp (find_collection d "trackingevent").

(** ** Sample data *)

Definition sample_rng : nat -> nat := fun n => (7 * n + 3)%nat.

Definition empty_store : Database := mkDatabase [] 0.

Definition sample_world : World :=
  mkWorld (Some empty_store) 1700000000000000 sample_rng 0 [].

Definition degraded_world : World :=
  mkWorld None 1700000000000000 sample_rng 0 [].

Definition sea_10_2 : QuoteRequest.t :=
  QuoteRequest.mk "Shanghai" "Rotterdam" "sea" (of_int 10) (of_int 2).

Definition air_100_5 : QuoteRequest.t :=
  QuoteRequest.mk "Shanghai" "Rotterdam" "air" (of_int 100) (of_int 5).

Definition rail_100_5 : QuoteRequest.t :=
  QuoteRequest.mk "Shanghai" "Rotterdam" "rail" (of_int 100) (of_int 5).

Definition sea_minus1_5 : QuoteRequest.t :=
  QuoteRequest.mk "Shanghai" "Rotterdam" "sea" (of_int (-1)) (of_int 5).

Definition sample_booking : BookShipmentRequest.t :=
  BookShipmentRequest.mk "Shanghai" "Rotterdam" "sea" (of_int 10) (of_int 2)
    "Acme Ltd" "ops@acme.example".

Definition return_booking : BookShipmentRequest.t :=
  BookShipmentRequest.mk "Rotterdam" "Shanghai" "air" (of_int 250) (of_int 3)
    "Globex BV" "desk@globex.example".

Definition rail_booking : BookShipmentRequest.t :=
  BookShipmentRequest.mk "Shanghai" "Rotterdam" "rail" (of_int 10) (of_int 2)
    "Acme Ltd" "ops@acme.example".

Definition zero_volume_booking : BookShipmentRequest.t :=
  BookShipmentRequest.mk "Shanghai" "Rotterdam" "sea" (of_int 10) fzero
    "Acme Ltd" "ops@acme.example".

Definition event_doc (x : string) (timestamp : value) : Document :=
  [("tracking_number", VStr x); ("status", VStr "created");
   ("location", VStr "Shanghai"); ("note", VNone); ("timestamp", timestamp)].

Definition event_without_timestamp (x : string) : Document :=
  [("tracking_number", VStr x); ("status", VStr "in_transit");
   ("location", VNone); ("note", VNone)].

(** A dated event reported from a place on the way. *)
Definition event_at (x location : string) (t : Z) : Document :=
  [("tracking_number", VStr x); ("status", VStr "in_transit");
   ("location", VStr location); ("note", VNone); ("timestamp", VDatetime t)].

Definition world_of (events : list Document) : World :=
  mkWorld (Some (mkDatabase [("trackingevent", events)] (List.length events)))
    1700000000000000 sample_rng 0 [].

(** Three dated events out of order, followed by one without a timestamp. *)
Definition undated_last : list Document :=
  [event_doc "LGF-AAAAAAAA" (VDatetime 10); event_doc "LGF-AAAAAAAA" (VDatetime 30);
   event_doc "LGF-AAAAAAAA" (VDatetime 20); event_without_timestamp "LGF-AAAAAAAA"].

(** Two pairs of events with equal timestamps, the later pair's first event
    retrieved first. *)
Definition tied_events : list Document :=
  [event_at "LGF-AAAAAAAA" "Rotterdam" 20; event_at "LGF-AAAAAAAA" "Shanghai" 10;
   event_at "LGF-AAAAAAAA" "Antwerp" 20; event_at "LGF-AAAAAAAA" "Ningbo" 10].

(** A store handle whose listing succeeds with twelve collections. *)
Definition twelve_collections : Probe :=
  mkProbe (Some "mongodb://localhost") (Present "logiflow")
    (inr ["quote"; "shipment"; "trackingevent"; "shipper"; "invoice"; "carrier";
          "port"; "tariff"; "customs"; "audit"; "session"; "archive"]).

(** A store handle whose listing raises with a message of 75 characters, 82
    bytes. *)
Definition refused : string :=
  "connexion refusée par l’hôte db.logiflow.example:27017 après 30 s d’attente".

Definition failing_listing : Probe :=
  mkProbe (Some "mongodb://localhost") (Present "logiflow") (inl refused).

Definition dated_unordered : list Document :=
  [event_doc "LGF-AAAAAAAA" (VDatetime 30); event_doc "LGF-BBBBBBBB" (VDatetime 5);
   event_doc "LGF-AAAAAAAA" (VDatetime 10); event_doc "LGF-AAAAAAAA" (VDatetime 20)].

(** * The float model against Rocq's binary64 floats *)

Section ModelChecks.

#[local] Set Warnings "-inexact-float".

(** The literals of [main.py] are the binary64 values a float parser reads. *)
Example literal_0_8 : literal 8 10 = Prim2SF 0.8%float.
Proof. vm_compute. reflexivity. Qed.

Example literal_1_2 : literal 12 10 = Prim2SF 1.2%float.
Proof. vm_compute. reflexivity. Qed.

Example literal_1_0_2_0 :
  literal 10 10 = Prim2SF 1.0%float /\ literal 20 10 = Prim2SF 2.0%float.
Proof. split; vm_compute; reflexivity. Qed.

Example of_int_98_410 :
  of_int 98 = Prim2SF 98.0%float /\ of_int 410 = Prim2SF 410.0%float.
Proof. split; vm_compute; reflexivity. Qed.

(** The operations agree with the primitive ones on the first example. *)
Example arithmetic_sea_10_2 :
  (of_int 50 + literal 10 10 * (of_int 10 * literal 8 10 + of_int 2 * of_int 20))%pf
  = Prim2SF (50 + 1.0 * (10 * 0.8 + 2 * 20))%float.
Proof. vm_compute. reflexivity. Qed.

(** [round(x, 2)] on textbook inputs: 2.675 is stored below the tie and
    rounds down, 0.125 is an exact tie and rounds to the even 0.12, 1.005 is
    stored below the tie, and a value with no fractional bits is unchanged. *)
Example round2_2_675 : round2 (Prim2SF 2.675%float) = Prim2SF 2.67%float.
Proof. vm_compute. reflexivity. Qed.

Example round2_0_125 : round2 (Prim2SF 0.125%float) = Prim2SF 0.12%float.
Proof. vm_compute. reflexivity. Qed.

Example round2_1_005 : round2 (Prim2SF 1.005%float) = Prim2SF 1.0%float.
Proof. vm_compute. reflexivity. Qed.

Example round2_large : round2 (Prim2SF 1e300%float) = Prim2SF 1e300%float.
Proof. vm_compute. reflexivity. Qed.

Example round2_tiny : round2 (Prim2SF 0.004%float) = fzero.
Proof. vm_compute. reflexivity. Qed.

End ModelChecks.

(** * Facts about binary64 arithmetic *)

Section Digits.

Lemma digits2_pos_bounds (p : positive) :
  2 ^ (Zpos (digits2_pos p) - 1) <= Zpos p < 2 ^ Zpos (digits2_pos p).
Proof.
  induction p as [p IH | p IH |]; cbn [digits2_pos].
  - rewrite Pos2Z.inj_succ, Z.pow_succ_r by lia.
    replace (Z.succ (Zpos (digits2_pos p)) - 1) with (Z.succ (Zpos (digits2_pos p) - 1)) by lia.
    rewrite Z.pow_succ_r by lia. lia.
  - rewrite Pos2Z.inj_succ, Z.pow_succ_r by lia.
    replace (Z.succ (Zpos (digits2_pos p)) - 1) with (Z.succ (Zpos (digits2_pos p) - 1)) by lia.
    rewrite Z.pow_succ_r by lia. lia.
  - cbn. lia.
Qed.

Lemma Zdigits2_pos (m : Z) : 0 < m -> 0 < Zdigits2 m.
Proof. destruct m; cbn; lia. Qed.

Lemma Zdigits2_bounds (m : Z) :
  0 < m -> 2 ^ (Zdigits2 m - 1) <= m < 2 ^ Zdigits2 m.
Proof.
  destruct m as [| p | p]; try lia. intros _. apply digits2_pos_bounds.
Qed.

Lemma Zdigits2_unique (m k : Z) :
  0 < m -> 2 ^ (k - 1) <= m < 2 ^ k -> Zdigits2 m = k.
Proof.
  intros Hm [Hlo Hhi].
  pose proof (Zdigits2_bounds m Hm) as [Dlo Dhi].
  pose proof (Zdigits2_pos m Hm) as Dpos.
  assert (0 < k).
  { destruct (Z.ltb_spec 0 k); [assumption|].
    assert (2 ^ k <= 2 ^ 0) by (destruct (Z.eq_dec k 0);
      [subst; lia | rewrite Z.pow_neg_r by lia; cbn; lia]).
    cbn in *. lia. }
  destruct (Z.lt_trichotomy (Zdigits2 m) k) as [Hlt | [Heq | Hgt]]; [|assumption|].
  - assert (2 ^ Zdigits2 m <= 2 ^ (k - 1)) by (apply Z.pow_le_mono_r; lia). lia.
  - assert (2 ^ k <= 2 ^ (Zdigits2 m - 1)) by (apply Z.pow_le_mono_r; lia). lia.
Qed.

Lemma Zdigits2_le (m n : Z) : 0 < m -> m <= n -> Zdigits2 m <= Zdigits2 n.
Proof.
  intros Hm Hmn.
  pose proof (Zdigits2_bounds m Hm) as [Dlo Dhi].
  pose proof (Zdigits2_bounds n ltac:(lia)) as [Elo Ehi].
  destruct (Z.le_gt_cases (Zdigits2 m) (Zdigits2 n)); [assumption|].
  assert (2 ^ Zdigits2 n <= 2 ^ (Zdigits2 m - 1)).
  { apply Z.pow_le_mono_r; lia. }
  lia.
Qed.

Lemma Zdigits2_shift (m n : Z) :
  0 < m -> 0 <= n -> n < Zdigits2 m ->
  0 < m / 2 ^ n /\ Zdigits2 (m / 2 ^ n) = Zdigits2 m - n.
Proof.
  intros Hm Hn Hd.
  pose proof (Zdigits2_bounds m Hm) as [Dlo Dhi].
  assert (Hp : 0 < 2 ^ n) by (apply Z.pow_pos_nonneg; lia).
  assert (Hlo : 2 ^ (Zdigits2 m - n - 1) <= m / 2 ^ n).
  { apply Z.div_le_lower_bound; [assumption|].
    rewrite <- Z.pow_add_r by lia.
    replace (n + (Zdigits2 m - n - 1)) with (Zdigits2 m - 1) by lia. assumption. }
  assert (Hhi : m / 2 ^ n < 2 ^ (Zdigits2 m - n)).
  { apply Z.div_lt_upper_bound; [assumption|].
    rewrite <- Z.pow_add_r by lia.
    replace (n + (Zdigits2 m - n)) with (Zdigits2 m) by lia. assumption. }
  assert (0 < 2 ^ (Zdigits2 m - n - 1)) by (apply Z.pow_pos_nonneg; lia).
  split; [lia|].
  apply Zdigits2_unique; [lia|]. split; assumption.
Qed.

Lemma Zdigits2_mul_pow2 (m n : Z) :
  0 < m -> 0 <= n -> Zdigits2 (m * 2 ^ n) = Zdigits2 m + n.
Proof.
  intros Hm Hn.
  pose proof (Zdigits2_bounds m Hm) as [Dlo Dhi].
  pose proof (Zdigits2_pos m Hm).
  assert (Hp : 0 < 2 ^ n) by (apply Z.pow_pos_nonneg; lia).
  apply Zdigits2_unique; [nia|].
  replace (Zdigits2 m + n - 1) with ((Zdigits2 m - 1) + n) by lia.
  rewrite !Z.pow_add_r by lia. nia.
Qed.

End Digits.

Section Rounding.

Lemma shr_1_m (r : shr_record) : 0 <= shr_m r -> shr_m (shr_1 r) = shr_m r / 2.
Proof.
  destruct r as [m r s]; cbn [shr_m]. intros Hm.
  destruct m as [| [p | p |] | p]; cbn [shr_1 shr_m].
  - reflexivity.
  - apply Z.div_unique with (r := 1); lia.
  - apply Z.div_unique with (r := 0); lia.
  - reflexivity.
  - lia.
Qed.

Lemma pow2_xI (p : positive) : 2 ^ Zpos p~1 = 2 * (2 ^ Zpos p * 2 ^ Zpos p).
Proof.
  rewrite Pos2Z.inj_xI, <- Z.pow_add_r, <- Z.pow_succ_r by lia. f_equal. lia.
Qed.

Lemma pow2_xO (p : positive) : 2 ^ Zpos p~0 = 2 ^ Zpos p * 2 ^ Zpos p.
Proof.
  rewrite Pos2Z.inj_xO, <- Z.pow_add_r by lia. f_equal. lia.
Qed.

Lemma iter_shr_1_m (p : positive) (r : shr_record) :
  0 <= shr_m r -> shr_m (iter_pos shr_1 p r) = shr_m r / 2 ^ Zpos p.
Proof.
  revert r. induction p as [p IH | p IH |]; intros r Hr; cbn [iter_pos].
  - assert (H1 : 0 <= shr_m (shr_1 r)).
    { rewrite shr_1_m by assumption. apply Z.div_pos; lia. }
    assert (Hp : 0 < 2 ^ Zpos p) by (apply Z.pow_pos_nonneg; lia).
    assert (H2 : 0 <= shr_m (iter_pos shr_1 p (shr_1 r))).
    { rewrite IH by assumption. apply Z.div_pos; lia. }
    rewrite IH, IH, shr_1_m by assumption.
    rewrite !Z.div_div by lia.
    rewrite pow2_xI. reflexivity.
  - assert (Hp : 0 < 2 ^ Zpos p) by (apply Z.pow_pos_nonneg; lia).
    assert (H2 : 0 <= shr_m (iter_pos shr_1 p r)).
    { rewrite IH by assumption. apply Z.div_pos; lia. }
    rewrite IH, IH by assumption.
    rewrite !Z.div_div by lia.
    rewrite pow2_xO. reflexivity.
  - rewrite shr_1_m by assumption. reflexivity.
Qed.

Lemma shr_record_of_loc_m (m : Z) (l : location) : shr_m (shr_record_of_loc m l) = m.
Proof. destruct l as [| []]; reflexivity. Qed.

(** What a right shift by [n] leaves of the mantissa and the exponent. *)
Lemma shr_spec (r : shr_record) (e n : Z) :
  0 <= shr_m r ->
  shr_m (fst (shr r e n)) = shr_m r / 2 ^ Z.max 0 n /\
  snd (shr r e n) = e + Z.max 0 n.
Proof.
  intros Hr. destruct n as [| p | p]; cbn [shr fst snd].
  - cbn. rewrite Z.div_1_r. split; lia.
  - rewrite iter_shr_1_m by assumption.
    replace (Z.max 0 (Zpos p)) with (Zpos p) by lia. split; reflexivity.
  - replace (Z.max 0 (Zneg p)) with 0 by lia. cbn. rewrite Z.div_1_r. split; lia.
Qed.

Lemma shr_fexp_nonneg (m e : Z) (l : location) :
  0 <= m -> 0 <= shr_m (fst (shr_fexp prec emax m e l)).
Proof.
  intros Hm. unfold shr_fexp.
  destruct (shr_spec (shr_record_of_loc m l) e
              (fexp prec emax (Zdigits2 m + e) - e)) as [-> _].
  - rewrite shr_record_of_loc_m. assumption.
  - rewrite shr_record_of_loc_m. apply Z.div_pos; [assumption|].
    apply Z.pow_pos_nonneg; lia.
Qed.

(** Away from the subnormal range a shift keeps the mantissa positive and
    the magnitude [digits + exponent] unchanged. *)
Lemma shr_fexp_normal (m e : Z) (l : location) :
  0 < m -> SpecFloat.emin prec emax + prec <= Zdigits2 m + e ->
  0 < shr_m (fst (shr_fexp prec emax m e l)) /\
  Zdigits2 (shr_m (fst (shr_fexp prec emax m e l))) + snd (shr_fexp prec emax m e l)
  = Zdigits2 m + e.
Proof.
  intros Hm Hn. unfold shr_fexp.
  destruct (shr_spec (shr_record_of_loc m l) e
              (fexp prec emax (Zdigits2 m + e) - e)) as [-> ->];
    rewrite shr_record_of_loc_m; [lia|].
  pose proof (Zdigits2_pos m Hm) as Hd.
  assert (Hf : fexp prec emax (Zdigits2 m + e) - e = Zdigits2 m - prec).
  { unfold fexp, SpecFloat.emin in *. lia. }
  rewrite Hf.
  destruct (Zdigits2_shift m (Z.max 0 (Zdigits2 m - prec))) as [Hq Hdq];
    try (unfold prec; lia).
  split; [assumption|]. rewrite Hdq. lia.
Qed.

Lemma round_nearest_even_cases (m : Z) (l : location) :
  round_nearest_even m l = m \/ round_nearest_even m l = m + 1.
Proof.
  destruct l as [| []]; cbn [round_nearest_even]; auto.
  destruct (Z.even m); auto.
Qed.

Lemma binary_round_aux_nonneg (m e : Z) (l : location) :
  0 <= m -> nonneg (binary_round_aux prec emax false m e l).
Proof.
  intros Hm. unfold binary_round_aux.
  pose proof (shr_fexp_nonneg m e l Hm) as H1.
  destruct (shr_fexp prec emax m e l) as [r1 e1]. cbn [fst] in H1.
  assert (H2 : 0 <= round_nearest_even (shr_m r1) (loc_of_shr_record r1)).
  { destruct (round_nearest_even_cases (shr_m r1) (loc_of_shr_record r1)); lia. }
  pose proof (shr_fexp_nonneg _ e1 loc_Exact H2) as H3.
  destruct (shr_fexp prec emax _ e1 loc_Exact) as [r2 e2]. cbn [fst] in H3.
  destruct (shr_m r2); [exact I | | lia].
  destruct (e2 <=? emax - prec); exact I.
Qed.

Lemma binary_round_aux_at_least (m e : Z) (l : location) :
  0 < m -> SpecFloat.emin prec emax + prec <= Zdigits2 m + e ->
  at_least (Zdigits2 m + e) (binary_round_aux prec emax false m e l).
Proof.
  intros Hm Hn. unfold binary_round_aux.
  pose proof (shr_fexp_normal m e l Hm Hn) as [H1 D1].
  destruct (shr_fexp prec emax m e l) as [r1 e1]. cbn [fst snd] in H1, D1.
  set (m2 := round_nearest_even (shr_m r1) (loc_of_shr_record r1)).
  assert (H2 : 0 < m2 /\ Zdigits2 (shr_m r1) <= Zdigits2 m2).
  { subst m2.
    destruct (round_nearest_even_cases (shr_m r1) (loc_of_shr_record r1)) as [-> | ->].
    - split; lia.
    - split; [lia|]. apply Zdigits2_le; lia. }
  destruct H2 as [H2 D2].
  pose proof (shr_fexp_normal m2 e1 loc_Exact H2 ltac:(lia)) as [H3 D3].
  destruct (shr_fexp prec emax m2 e1 loc_Exact) as [r2 e2]. cbn [fst snd] in H3, D3.
  destruct (shr_m r2) as [| p | p]; try lia.
  destruct (e2 <=? emax - prec); cbn [at_least]; [|exact I].
  cbn [Zdigits2] in D3. lia.
Qed.

End Rounding.

Section Operations.

Lemma gt0_is_pos (x : float) : gt0 x = true <-> is_pos x.
Proof.
  destruct x as [[] | [] | | [] m e]; cbn; intuition congruence.
Qed.

Lemma is_pos_nonneg (x : float) : is_pos x -> nonneg x.
Proof. destruct x as [[] | [] | | [] m e]; cbn; auto. Qed.

Lemma at_least_is_pos (k : Z) (x : float) : at_least k x -> is_pos x.
Proof. destruct x as [[] | [] | | [] m e]; cbn; auto. Qed.

Lemma at_least_weaken (k k' : Z) (x : float) : k' <= k -> at_least k x -> at_least k' x.
Proof. destruct x as [[] | [] | | [] m e]; cbn; auto. lia. Qed.

Lemma le0_not_pos (x : float) : le0 x = true -> ~ is_pos x.
Proof. destruct x as [[] | [] | | [] m e]; cbn; intuition congruence. Qed.

Lemma fmul_nonneg (x : float) (m : positive) (e : Z) :
  nonneg x ->
  nonneg (fmul x (S754_finite false m e)) /\ nonneg (fmul (S754_finite false m e) x).
Proof.
  destruct x as [[] | [] | | [] mx ex]; cbn [nonneg]; try contradiction; intros _;
    unfold fmul; cbn [SFmul xorb]; try (split; exact I).
  split; apply binary_round_aux_nonneg; lia.
Qed.

Lemma iter_xO (d m : positive) : Zpos (Pos.iter xO m d) = Zpos m * 2 ^ Zpos d.
Proof.
  induction d as [| d IH] using Pos.peano_ind.
  - cbn [Pos.iter]. lia.
  - rewrite Pos.iter_succ, Pos2Z.inj_xO, IH, Pos2Z.inj_succ, Z.pow_succ_r by lia. lia.
Qed.

(** Aligning a mantissa to a lower exponent does not change its magnitude. *)
Lemma shl_align_magnitude (m : positive) (e e' : Z) :
  Zpos (digits2_pos (fst (shl_align m e e'))) + snd (shl_align m e e')
  = Zpos (digits2_pos m) + e.
Proof.
  unfold shl_align. destruct (e' - e) as [| d | d] eqn:E; cbn [fst snd]; try reflexivity.
  change (Zpos (digits2_pos (Pos.iter xO m d))) with (Zdigits2 (Zpos (Pos.iter xO m d))).
  rewrite iter_xO, Zdigits2_mul_pow2 by lia. cbn [Zdigits2]. lia.
Qed.

Lemma shl_align_exponent (m : positive) (e e' : Z) :
  e' <= e -> snd (shl_align m e e') = e'.
Proof.
  intros H. unfold shl_align. destruct (e' - e) as [| d | d] eqn:E; cbn [snd]; lia.
Qed.

Lemma binary_round_nonneg (m : positive) (e : Z) : nonneg (binary_round prec emax false m e).
Proof.
  unfold binary_round. destruct (shl_align m e _) as [mz ez].
  apply binary_round_aux_nonneg. lia.
Qed.

Lemma binary_round_at_least (m : positive) (e : Z) :
  SpecFloat.emin prec emax + prec <= Zpos (digits2_pos m) + e ->
  at_least (Zpos (digits2_pos m) + e) (binary_round prec emax false m e).
Proof.
  intros H. unfold binary_round.
  pose proof (shl_align_magnitude m e (fexp prec emax (Zpos (digits2_pos m) + e))) as D.
  destruct (shl_align m e _) as [mz ez]. cbn [fst snd] in D.
  rewrite <- D. apply (binary_round_aux_at_least (Zpos mz) ez loc_Exact); cbn [Zdigits2]; lia.
Qed.

Lemma fadd_nonneg (x y : float) : nonneg x -> nonneg y -> nonneg (fadd x y).
Proof.
  destruct x as [[] | [] | | [] mx ex]; cbn [nonneg]; try contradiction; intros _;
    destruct y as [[] | [] | | [] my ey]; cbn [nonneg]; try contradiction; intros _;
    unfold fadd; cbn [SFadd nonneg]; try exact I.
  cbn [cond_Zopp Z.add binary_normalize]. apply binary_round_nonneg.
Qed.

(** Adding a non-negative float to a positive finite one cannot lower its
    magnitude. *)
Lemma fadd_at_least (m : positive) (e : Z) (y : float) :
  SpecFloat.emin prec emax + prec <= Zpos (digits2_pos m) + e ->
  nonneg y ->
  at_least (Zpos (digits2_pos m) + e) (fadd (S754_finite false m e) y).
Proof.
  intros Hn.
  destruct y as [[] | [] | | [] my ey]; cbn [nonneg]; try contradiction; intros _;
    unfold fadd; cbn [SFadd at_least]; try exact I; try lia.
  cbn [cond_Zopp]. rewrite <- Pos2Z.inj_add. cbn [binary_normalize].
  set (ez := Z.min e ey).
  pose proof (shl_align_magnitude m e ez) as D.
  pose proof (shl_align_exponent m e ez ltac:(lia)) as E.
  set (a := fst (shl_align m e ez)) in *.
  set (b := fst (shl_align my ey ez)).
  assert (Hab : Zpos (digits2_pos a) <= Zpos (digits2_pos (a + b))).
  { apply (Zdigits2_le (Zpos a) (Zpos (a + b))); lia. }
  apply at_least_weaken with (k := Zpos (digits2_pos (a + b)) + ez); [lia|].
  apply binary_round_at_least. lia.
Qed.

(** The quotient mantissa of a division whose result is in the normal range. *)
Lemma div_core_normal (m1 m2 : positive) (e1 e2 : Z) :
  SpecFloat.emin prec emax + prec
    <= Zpos (digits2_pos m1) + e1 - (Zpos (digits2_pos m2) + e2) ->
  let '(q, e', _) := SFdiv_core_binary prec emax (Zpos m1) e1 (Zpos m2) e2 in
  0 < q /\ SpecFloat.emin prec emax + prec <= Zdigits2 q + e'.
Proof.
  intros Hn. unfold SFdiv_core_binary. cbn [Zdigits2].
  set (d1 := Zpos (digits2_pos m1)) in *. set (d2 := Zpos (digits2_pos m2)) in *.
  set (e' := Z.min (fexp prec emax (d1 + e1 - (d2 + e2))) (e1 - e2)).
  set (s := e1 - e2 - e').
  assert (Hs : 0 <= s /\ d2 - d1 + prec <= s).
  { subst s e'. unfold fexp, SpecFloat.emin in *. lia. }
  set (m' := match s with Zpos _ => Z.shiftl (Zpos m1) s | Z0 => Zpos m1 | Zneg _ => 0 end).
  assert (Hm' : m' = Zpos m1 * 2 ^ s).
  { subst m'. destruct s as [| p | p] eqn:Es; [cbn; lia | | lia].
    apply Z.shiftl_mul_pow2. lia. }
  destruct (Z.div_eucl m' (Zpos m2)) as [q r] eqn:Ediv.
  assert (Hq : q = m' / Zpos m2) by (unfold Z.div; rewrite Ediv; reflexivity).
  pose proof (digits2_pos_bounds m1) as [L1 _]. pose proof (digits2_pos_bounds m2) as [_ U2].
  fold d1 in L1. fold d2 in U2.
  set (t := d1 - 1 + s - d2).
  assert (Ht : 0 <= t) by (subst t; unfold prec in *; lia).
  assert (Hqt : 2 ^ t <= q).
  { rewrite Hq. apply Z.div_le_lower_bound; [lia|].
    assert (2 ^ t * 2 ^ d2 = 2 ^ (d1 - 1) * 2 ^ s).
    { rewrite <- !Z.pow_add_r by (subst d1 d2; lia). f_equal. subst t. lia. }
    assert (0 < 2 ^ t) by (apply Z.pow_pos_nonneg; lia).
    assert (0 < 2 ^ s) by (apply Z.pow_pos_nonneg; lia).
    rewrite Hm'. nia. }
  assert (0 < 2 ^ t) by (apply Z.pow_pos_nonneg; lia).
  split; [lia|].
  pose proof (Zdigits2_bounds q ltac:(lia)) as [_ Uq].
  assert (t < Zdigits2 q).
  { apply (Z.pow_lt_mono_r_iff 2); [lia | | lia].
    pose proof (Zdigits2_pos q ltac:(lia)). lia. }
  subst t s. lia.
Qed.

Lemma fdiv_is_pos (m1 m2 : positive) (e1 e2 : Z) :
  SpecFloat.emin prec emax + prec
    <= Zpos (digits2_pos m1) + e1 - (Zpos (digits2_pos m2) + e2) ->
  is_pos (fdiv (S754_finite false m1 e1) (S754_finite false m2 e2)).
Proof.
  intros Hn. unfold fdiv. cbn [SFdiv xorb].
  pose proof (div_core_normal m1 m2 e1 e2 Hn) as H.
  destruct (SFdiv_core_binary prec emax (Zpos m1) e1 (Zpos m2) e2) as [[q e'] l].
  destruct H as [Hq Hd].
  eapply at_least_is_pos. apply binary_round_aux_at_least; assumption.
Qed.

End Operations.

(** * The quote engine *)

Section QuoteFacts.

Lemma of_int_50 : of_int 50 = S754_finite false 7036874417766400 (-47).
Proof. vm_compute. reflexivity. Qed.

Lemma of_int_20 : of_int 20 = S754_finite false 5629499534213120 (-48).
Proof. vm_compute. reflexivity. Qed.

Lemma of_int_100 : of_int 100 = S754_finite false 7036874417766400 (-46).
Proof. vm_compute. reflexivity. Qed.

Lemma literal_8_10 : literal 8 10 = S754_finite false 7205759403792794 (-53).
Proof. vm_compute. reflexivity. Qed.

Lemma multiplier_finite (mode : string) :
  exists m e, dict_get multipliers mode (literal 10 10) = S754_finite false m e.
Proof.
  unfold dict_get, multipliers. cbn [lookup].
  destruct (String.eqb "sea" mode); [vm_compute; eauto|].
  destruct (String.eqb "road" mode); [vm_compute; eauto|].
  destruct (String.eqb "air" mode); vm_compute; eauto.
Qed.

Lemma hundredths_pos (m : positive) (e : Z) :
  6 <= Zpos (digits2_pos m) + e -> 0 < hundredths m e.
Proof.
  intros H. unfold hundredths.
  destruct (Z.leb_spec 0 e) as [He | He].
  - assert (0 < 2 ^ e) by (apply Z.pow_pos_nonneg; lia). nia.
  - set (d := 2 ^ (- e)).
    assert (Hd : 0 < d) by (apply Z.pow_pos_nonneg; lia).
    assert (Hq : 1 <= 100 * Zpos m / d).
    { apply Z.div_le_lower_bound; [assumption|].
      pose proof (digits2_pos_bounds m) as [L _].
      assert (d <= 2 ^ (Zpos (digits2_pos m) - 1)) by (apply Z.pow_le_mono_r; lia).
      lia. }
    destruct (2 * ((100 * Zpos m) mod d) ?= d); [|lia|lia].
    destruct (Z.even (100 * Zpos m / d)); lia.
Qed.

Lemma round2_is_pos (x : float) : at_least 6 x -> is_pos (round2 x).
Proof.
  destruct x as [[] | [] | | [] m e]; cbn [at_least]; try contradiction; intros H.
  - exact I.
  - unfold round2. pose proof (hundredths_pos m e H) as Hn.
    destruct (hundredths m e) as [| n | n]; try lia.
    rewrite of_int_100. apply fdiv_is_pos.
    change (Zpos (digits2_pos 7036874417766400)) with 53.
    unfold SpecFloat.emin, prec, emax. lia.
Qed.

(** The price is positive whatever the mode, for positive weight and volume:
    the [price_usd] constraint of [Quote] never fails on a computed price. *)
Lemma price_of_gt0 (mode : string) (weight_kg volume_cbm : float) :
  gt0 weight_kg = true -> gt0 volume_cbm = true ->
  gt0 (price_of mode weight_kg volume_cbm) = true.
Proof.
  rewrite !gt0_is_pos. intros Hw Hv. unfold price_of.
  destruct (multiplier_finite mode) as (mm & me & ->).
  rewrite of_int_50, of_int_20, literal_8_10.
  apply round2_is_pos.
  apply (fadd_at_least 7036874417766400 (-47)).
  - change (Zpos (digits2_pos 7036874417766400)) with 53.
    unfold SpecFloat.emin, prec, emax. lia.
  - apply fmul_nonneg. apply fadd_nonneg; apply fmul_nonneg; apply is_pos_nonneg; assumption.
Qed.

Lemma eta_of_pos (mode : string) : 0 < eta_of mode.
Proof.
  unfold eta_of, dict_get, etas. cbn [lookup].
  destruct (String.eqb "sea" mode); [lia|].
  destruct (String.eqb "road" mode); [lia|].
  destruct (String.eqb "air" mode); lia.
Qed.

End QuoteFacts.

(** * Running the handlers *)

Section Handlers.

Lemma is_literal_In (allowed : list string) (s : string) :
  is_literal allowed s = true <-> In s allowed.
Proof.
  unfold is_literal. rewrite existsb_exists. split.
  - intros (x & Hx & E). apply String.eqb_eq in E. subst. assumption.
  - intros H. exists s. split; [assumption | apply String.eqb_refl].
Qed.

Lemma validated_ok {A} (model : string) (errors : list string) (a a' : A) :
  validated model errors a = Ok a' -> errors = [] /\ a' = a.
Proof.
  destruct errors; cbn; intros H; [injection H as <-; auto | discriminate].
Qed.

Lemma app_nil_inv {A} (l l' : list A) : l ++ l' = [] -> l = [] /\ l' = [].
Proof. destruct l; cbn; [auto | discriminate]. Qed.

Lemma check_nil (ok : bool) (field : string) : check ok field = [] -> ok = true.
Proof. destruct ok; [reflexivity | discriminate]. Qed.

(** What [create_quote] does, step by step. *)
Lemma create_quote_run (payload : QuoteRequest.t) (w : World) :
  let price := price_of (QuoteRequest.mode payload) (QuoteRequest.weight_kg payload)
                 (QuoteRequest.volume_cbm payload) in
  let eta := eta_of (QuoteRequest.mode payload) in
  let w1 := with_trace w (trace w ++ [SPrice price; SEta eta]) in
  create_quote payload w =
  match Quote.new (QuoteRequest.origin payload) (QuoteRequest.destination payload)
          (Some (QuoteRequest.mode payload)) (QuoteRequest.weight_kg payload)
          (QuoteRequest.volume_cbm payload) price eta with
  | Raise e => (Raise e, w1)
  | Ok q =>
      match db w with
      | None => (Raise StorageUnavailable, w1)
      | Some d =>
          (Ok q, mkWorld (Some (insert_one d "quote" (model_dump q))) (utcnow w) (rng w)
                   (drawn w) (trace w ++ [SPrice price; SEta eta; SInsert "quote" (model_dump q)]))
      end
  end.
Proof.
  intros price eta w1. subst w1. destruct w as [d now r n t].
  cbv beta iota delta [create_quote bind eval record ret lift create_document
                       with_db with_trace db trace utcnow rng drawn].
  fold price eta. rewrite <- ?app_assoc. cbn [app].
  destruct (Quote.new _ _ _ _ _ price eta); [|reflexivity].
  destruct d; rewrite <- ?app_assoc; reflexivity.
Qed.

(** What [book_shipment] does, step by step. *)
Lemma book_shipment_run (payload : BookShipmentRequest.t) (w : World) :
  let tracking := tracking_of w in
  let w1 := with_drawn w (drawn w + 8)%nat in
  book_shipment payload w =
  match Shipment.new tracking (BookShipmentRequest.origin payload)
          (BookShipmentRequest.destination payload)
          (Some (BookShipmentRequest.mode payload))
          (BookShipmentRequest.weight_kg payload)
          (BookShipmentRequest.volume_cbm payload)
          (BookShipmentRequest.shipper_name payload)
          (BookShipmentRequest.shipper_email payload) None None with
  | Raise e => (Raise e, w1)
  | Ok s =>
      match db w with
      | None => (Raise StorageUnavailable, w1)
      | Some d =>
          let event := TrackingEvent.mk tracking "created"
                         (Some (BookShipmentRequest.origin payload)) None (utcnow w) in
          (Ok s,
           mkWorld (Some (insert_one (insert_one d "shipment" (model_dump s))
                            "trackingevent" (model_dump event)))
             (utcnow w) (rng w) (drawn w + 8)%nat
             (trace w ++ [SInsert "shipment" (model_dump s);
                          SInsert "trackingevent" (model_dump event)]))
      end
  end.
Proof.
  intros tracking w1. subst w1 tracking. destruct w as [d now r n t].
  cbv beta iota zeta delta [book_shipment bind ret lift create_document random_choices
                       TrackingEvent.new tracking_of
                       with_db with_trace with_drawn db trace utcnow rng drawn].
  destruct (Shipment.new _ _ _ _ _ _ _ _ _ _); [|reflexivity].
  destruct d; rewrite <- ?app_assoc; reflexivity.
Qed.

End Handlers.

(** * Quotes *)

Section QuoteClaims.

Lemma quote_new_accepts (origin destination mode : string)
  (weight_kg volume_cbm price_usd : float) (eta_days : Z) :
  In mode ["air"; "sea"; "road"] ->
  gt0 weight_kg = true -> gt0 volume_cbm = true -> gt0 price_usd = true ->
  0 < eta_days ->
  Quote.new origin destination (Some mode) weight_kg volume_cbm price_usd eta_days
  = Ok (Quote.mk origin destination mode weight_kg volume_cbm price_usd eta_days).
Proof.
  intros Hm Hw Hv Hp He. unfold Quote.new.
  rewrite (proj2 (is_literal_In modes mode) Hm), Hw, Hv, Hp, (proj2 (Z.ltb_lt _ _) He).
  reflexivity.
Qed.

Lemma quote_new_inv (origin destination : string) (mode : option string)
  (weight_kg volume_cbm price_usd : float) (eta_days : Z) (q : Quote.t) :
  Quote.new origin destination mode weight_kg volume_cbm price_usd eta_days = Ok q ->
  let mode' := match mode with Some m => m | None => "sea" end in
  q = Quote.mk origin destination mode' weight_kg volume_cbm price_usd eta_days /\
  In mode' ["air"; "sea"; "road"] /\
  gt0 weight_kg = true /\ gt0 volume_cbm = true.
Proof.
  intros H mode'. unfold Quote.new in H. apply validated_ok in H as [E ->].
  apply app_nil_inv in E as [E1 E]. apply app_nil_inv in E as [E2 E].
  apply app_nil_inv in E as [E3 E].
  apply check_nil in E1, E2, E3.
  split; [reflexivity|]. split; [|split; assumption].
  apply (is_literal_In modes). assumption.
Qed.

Lemma quote_new_rejects (origin destination mode : string)
  (weight_kg volume_cbm price_usd : float) (eta_days : Z) :
  ~ In mode ["air"; "sea"; "road"] \/ gt0 weight_kg = false \/ gt0 volume_cbm = false ->
  exists fields,
    Quote.new origin destination (Some mode) weight_kg volume_cbm price_usd eta_days
    = Raise (ValidationError "Quote" fields).
Proof.
  intros H.
  destruct (Quote.new origin destination (Some mode) weight_kg volume_cbm price_usd eta_days)
    as [q | e] eqn:E.
  - apply quote_new_inv in E as (_ & Hm & Hw & Hv).
    destruct H as [H | [H | H]]; [contradiction | congruence | congruence].
  - unfold Quote.new, validated in E.
    destruct (_ ++ _) in E; [discriminate|]. injection E as <-. eauto.
Qed.

Lemma shipment_new_inv (tracking_number origin destination : string) (mode : option string)
  (weight_kg volume_cbm : float) (shipper_name shipper_email : string)
  (status quote_id : option string) (s : Shipment.t) :
  Shipment.new tracking_number origin destination mode weight_kg volume_cbm
    shipper_name shipper_email status quote_id = Ok s ->
  let mode' := match mode with Some m => m | None => "sea" end in
  let status' := match status with Some st => st | None => "created" end in
  s = Shipment.mk tracking_number origin destination mode' weight_kg volume_cbm
        shipper_name shipper_email status' quote_id /\
  In mode' ["air"; "sea"; "road"] /\
  gt0 weight_kg = true /\ gt0 volume_cbm = true /\
  In status' ["created"; "booked"; "in_transit"; "customs"; "out_for_delivery"; "delivered"].
Proof.
  intros H mode' status'. unfold Shipment.new in H. apply validated_ok in H as [E ->].
  apply app_nil_inv in E as [E1 E]. apply app_nil_inv in E as [E2 E].
  apply app_nil_inv in E as [E3 E4].
  apply check_nil in E1, E2, E3, E4.
  split; [reflexivity|]. repeat split; try assumption.
  - apply (is_literal_In modes). assumption.
  - apply (is_literal_In statuses). assumption.
Qed.

Lemma shipment_new_accepts (tracking_number origin destination mode : string)
  (weight_kg volume_cbm : float) (shipper_name shipper_email : string) :
  In mode ["air"; "sea"; "road"] ->
  gt0 weight_kg = true -> gt0 volume_cbm = true ->
  Shipment.new tracking_number origin destination (Some mode) weight_kg volume_cbm
    shipper_name shipper_email None None
  = Ok (Shipment.mk tracking_number origin destination mode weight_kg volume_cbm
          shipper_name shipper_email "created" None).
Proof.
  intros Hm Hw Hv. unfold Shipment.new.
  rewrite (proj2 (is_literal_In modes mode) Hm), Hw, Hv. reflexivity.
Qed.

Lemma shipment_new_rejects (tracking_number origin destination mode : string)
  (weight_kg volume_cbm : float) (shipper_name shipper_email : string) :
  ~ In mode ["air"; "sea"; "road"] \/ gt0 weight_kg = false \/ gt0 volume_cbm = false ->
  exists fields,
    Shipment.new tracking_number origin destination (Some mode) weight_kg volume_cbm
      shipper_name shipper_email None None
    = Raise (ValidationError "Shipment" fields).
Proof.
  intros H.
  destruct (Shipment.new tracking_number origin destination (Some mode) weight_kg
              volume_cbm shipper_name shipper_email None None) as [s | e] eqn:E.
  - apply shipment_new_inv in E as (_ & Hm & Hw & Hv & _).
    destruct H as [H | [H | H]]; [contradiction | congruence | congruence].
  - unfold Shipment.new, validated in E.
    destruct (_ ++ _) in E; [discriminate|]. injection E as <-. eauto.
Qed.

Lemma le0_gt0 (x : float) : le0 x = true -> gt0 x = false.
Proof. destruct x as [[] | [] | | [] m e]; cbn; congruence. Qed.

Lemma price_of_sea_10_2 : price_of "sea" (of_int 10) (of_int 2) = of_int 98.
Proof. vm_compute. reflexivity. Qed.

Lemma price_of_air_100_5 : price_of "air" (of_int 100) (of_int 5) = of_int 410.
Proof. vm_compute. reflexivity. Qed.

(** C1. With a store configured, a request whose mode is sea, road or air
    and whose weight and volume are positive is answered with a Quote whose
    [price_usd] is [round(50 + multiplier * (weight_kg * 0.8 + volume_cbm * 20), 2)]
    for the multipliers 1.0, 1.2 and 2.0, and whose [eta_days] is 21, 7 and 3;
    the quote carries the request's fields and is the one document added to
    the store.  In particular (sea, 10, 2) is priced 98.0 with 21 days and
    (air, 100, 5) is priced 410.0 with 3 days. *)
Theorem create_quote_price_and_eta
  (payload : QuoteRequest.t) (w : World) (d : Database) (multiplier : float) (eta : Z) :
  db w = Some d ->
  In (QuoteRequest.mode payload, multiplier, eta)
     [("sea", literal 10 10, 21); ("road", literal 12 10, 7); ("air", literal 20 10, 3)] ->
  gt0 (QuoteRequest.weight_kg payload) = true ->
  gt0 (QuoteRequest.volume_cbm payload) = true ->
  exists q w',
    create_quote payload w = (Ok q, w') /\
    Quote.price_usd q
    = round2 (of_int 50 + multiplier * (QuoteRequest.weight_kg payload * literal 8 10
                                        + QuoteRequest.volume_cbm payload * of_int 20))%pf /\
    Quote.eta_days q = eta /\
    Quote.origin q = QuoteRequest.origin payload /\
    Quote.destination q = QuoteRequest.destination payload /\
    Quote.mode q = QuoteRequest.mode payload /\
    Quote.weight_kg q = QuoteRequest.weight_kg payload /\
    Quote.volume_cbm q = QuoteRequest.volume_cbm payload /\
    db w' = Some (insert_one d "quote" (model_dump q)) /\
    (QuoteRequest.mode payload = "sea" ->
     QuoteRequest.weight_kg payload = of_int 10 ->
     QuoteRequest.volume_cbm payload = of_int 2 ->
     Quote.price_usd q = of_int 98 /\ Quote.eta_days q = 21) /\
    (QuoteRequest.mode payload = "air" ->
     QuoteRequest.weight_kg payload = of_int 100 ->
     QuoteRequest.volume_cbm payload = of_int 5 ->
     Quote.price_usd q = of_int 410 /\ Quote.eta_days q = 3).
Proof.
  intros Hdb Htab Hw Hv.
  assert (Hmode : In (QuoteRequest.mode payload) ["air"; "sea"; "road"]).
  { cbn [In] in *. destruct Htab as [E | [E | [E | []]]]; injection E as <- _ _; auto. }
  assert (Hprice : price_of (QuoteRequest.mode payload) (QuoteRequest.weight_kg payload)
                     (QuoteRequest.volume_cbm payload)
                   = round2 (of_int 50 + multiplier
                        * (QuoteRequest.weight_kg payload * literal 8 10
                           + QuoteRequest.volume_cbm payload * of_int 20))%pf).
  { cbn [In] in Htab. destruct Htab as [E | [E | [E | []]]]; injection E as <- <- _;
      reflexivity. }
  assert (Heta : eta_of (QuoteRequest.mode payload) = eta).
  { cbn [In] in Htab. destruct Htab as [E | [E | [E | []]]]; injection E as <- _ <-;
      reflexivity. }
  pose proof (create_quote_run payload w) as Hrun. cbv zeta in Hrun.
  rewrite (quote_new_accepts _ _ _ _ _ _ _ Hmode Hw Hv
             (price_of_gt0 _ _ _ Hw Hv) (eta_of_pos _)), Hdb in Hrun.
  eexists. eexists. split; [exact Hrun|].
  cbn [Quote.price_usd Quote.eta_days Quote.origin Quote.destination Quote.mode
       Quote.weight_kg Quote.volume_cbm db].
  repeat (split; [first [assumption | reflexivity]|]).
  split.
  - intros -> -> ->. split; [apply price_of_sea_10_2 | reflexivity].
  - intros -> -> ->. split; [apply price_of_air_100_5 | reflexivity].
Qed.

Lemma create_quote_price_and_eta_witness :
  (exists q w',
     create_quote sea_10_2 sample_world = (Ok q, w') /\
     Quote.price_usd q = of_int 98 /\ Quote.eta_days q = 21) /\
  (exists q w',
     create_quote air_100_5 sample_world = (Ok q, w') /\
     Quote.price_usd q = of_int 410 /\ Quote.eta_days q = 3).
Proof.
  split.
  - destruct (create_quote_price_and_eta sea_10_2 sample_world empty_store (literal 10 10) 21)
      as (q & w' & Hrun & _ & _ & _ & _ & _ & _ & _ & _ & Hsea & _).
    + reflexivity.
    + cbn [In]. left. reflexivity.
    + vm_compute. reflexivity.
    + vm_compute. reflexivity.
    + exists q, w'. split; [exact Hrun|]. apply Hsea; reflexivity.
  - destruct (create_quote_price_and_eta air_100_5 sample_world empty_store (literal 20 10) 3)
      as (q & w' & Hrun & _ & _ & _ & _ & _ & _ & _ & _ & _ & Hair).
    + reflexivity.
    + cbn [In]. right. right. left. reflexivity.
    + vm_compute. reflexivity.
    + vm_compute. reflexivity.
    + exists q, w'. split; [exact Hrun|]. apply Hair; reflexivity.
Defined.

Lemma multiplier_default (mode : string) :
  ~ In mode ["sea"; "road"; "air"] ->
  dict_get multipliers mode (literal 10 10) = literal 10 10 /\ eta_of mode = 14.
Proof.
  intros H. unfold eta_of, dict_get, multipliers, etas. cbn [lookup].
  destruct (String.eqb_spec "sea" mode) as [<- | _]; [cbn [In] in H; tauto|].
  destruct (String.eqb_spec "road" mode) as [<- | _]; [cbn [In] in H; tauto|].
  destruct (String.eqb_spec "air" mode) as [<- | _]; [cbn [In] in H; tauto|].
  split; reflexivity.
Qed.

(** C2 (as the code has it). A quote or booking request with
    [weight_kg <= 0] or [volume_cbm <= 0] is rejected by the schema
    constructor ([Quote] or [Shipment]) with a validation error and nothing is
    persisted: the store is unchanged and no insert is traced.  For a quote
    the price and the ETA have been computed by then; a booking computes
    neither and has only drawn its tracking number. *)
Theorem nonpositive_rejected_by_schema
  (w : World) (payload : QuoteRequest.t) (booking : BookShipmentRequest.t) :
  (le0 (QuoteRequest.weight_kg payload) = true \/
   le0 (QuoteRequest.volume_cbm payload) = true ->
   exists fields w',
     create_quote payload w = (Raise (ValidationError "Quote" fields), w') /\
     db w' = db w /\
     trace w' = trace w ++ [SPrice (price_of (QuoteRequest.mode payload)
                                      (QuoteRequest.weight_kg payload)
                                      (QuoteRequest.volume_cbm payload));
                            SEta (eta_of (QuoteRequest.mode payload))]) /\
  (le0 (BookShipmentRequest.weight_kg booking) = true \/
   le0 (BookShipmentRequest.volume_cbm booking) = true ->
   exists fields w',
     book_shipment booking w = (Raise (ValidationError "Shipment" fields), w') /\
     db w' = db w /\
     trace w' = trace w).
Proof.
  split; intros H.
  - rewrite create_quote_run. cbv zeta.
    destruct (quote_new_rejects (QuoteRequest.origin payload)
                (QuoteRequest.destination payload) (QuoteRequest.mode payload)
                (QuoteRequest.weight_kg payload) (QuoteRequest.volume_cbm payload)
                (price_of (QuoteRequest.mode payload) (QuoteRequest.weight_kg payload)
                   (QuoteRequest.volume_cbm payload))
                (eta_of (QuoteRequest.mode payload))) as [fields ->].
    { right. destruct H as [H | H]; apply le0_gt0 in H; auto. }
    eexists. eexists. split; [reflexivity|]. split; reflexivity.
  - rewrite book_shipment_run. cbv zeta.
    destruct (shipment_new_rejects (tracking_of w) (BookShipmentRequest.origin booking)
                (BookShipmentRequest.destination booking) (BookShipmentRequest.mode booking)
                (BookShipmentRequest.weight_kg booking)
                (BookShipmentRequest.volume_cbm booking)
                (BookShipmentRequest.shipper_name booking)
                (BookShipmentRequest.shipper_email booking)) as [fields ->].
    { right. destruct H as [H | H]; apply le0_gt0 in H; auto. }
    eexists. eexists. split; [reflexivity|]. split; reflexivity.
Qed.

Lemma nonpositive_rejected_by_schema_witness :
  (exists fields w',
     create_quote sea_minus1_5 sample_world = (Raise (ValidationError "Quote" fields), w') /\
     db w' = db sample_world) /\
  (exists fields w',
     book_shipment zero_volume_booking sample_world
     = (Raise (ValidationError "Shipment" fields), w') /\
     db w' = db sample_world).
Proof.
  destruct (nonpositive_rejected_by_schema sample_world sea_minus1_5 zero_volume_booking)
    as [Hq Hb].
  split.
  - destruct Hq as (fields & w' & Hrun & Hdb & _).
    + left. vm_compute. reflexivity.
    + exists fields, w'. split; assumption.
  - destruct Hb as (fields & w' & Hrun & Hdb & _).
    + right. vm_compute. reflexivity.
    + exists fields, w'. split; assumption.
Defined.

(** C2 as stated fails: the request (sea, -1, 5) has [weight_kg <= 0], yet
    its run starts by computing a price, which the trace shows, before the
    [Quote] constructor raises. *)
Lemma price_computed_before_rejection :
  le0 (QuoteRequest.weight_kg sea_minus1_5) = true /\
  trace sample_world = [] /\
  exists e w' price,
    create_quote sea_minus1_5 sample_world = (Raise e, w') /\
    In (SPrice price) (trace w').
Proof.
  split; [vm_compute; reflexivity|]. split; [reflexivity|].
  eexists. eexists. eexists. split; [vm_compute; reflexivity|].
  left. reflexivity.
Qed.

(** C3 (as the code has it). For a mode other than sea, road and air (weight
    and volume positive) the handler computes the price with multiplier 1.0
    and an ETA of 14 days, and then the [Quote] constructor rejects the mode:
    the request fails with a validation error on [mode] alone and nothing is
    persisted. *)
Theorem unknown_mode_rejected (payload : QuoteRequest.t) (w : World) :
  ~ In (QuoteRequest.mode payload) ["sea"; "road"; "air"] ->
  gt0 (QuoteRequest.weight_kg payload) = true ->
  gt0 (QuoteRequest.volume_cbm payload) = true ->
  exists w',
    create_quote payload w = (Raise (ValidationError "Quote" ["mode"]), w') /\
    db w' = db w /\
    trace w' = trace w ++
      [SPrice (round2 (of_int 50 + literal 10 10
                         * (QuoteRequest.weight_kg payload * literal 8 10
                            + QuoteRequest.volume_cbm payload * of_int 20))%pf);
       SEta 14].
Proof.
  intros Hmode Hw Hv.
  destruct (multiplier_default _ Hmode) as [Hmul Heta].
  pose proof (price_of_gt0 (QuoteRequest.mode payload) _ _ Hw Hv) as Hp.
  pose proof (create_quote_run payload w) as Hrun. cbv zeta in Hrun.
  assert (Hlit : is_literal modes (QuoteRequest.mode payload) = false).
  { destruct (is_literal modes (QuoteRequest.mode payload)) eqn:E; [|reflexivity].
    apply is_literal_In in E. cbn [modes In] in *. tauto. }
  unfold Quote.new in Hrun. rewrite Hlit, Hw, Hv, Hp, Heta in Hrun.
  cbn [Z.ltb Z.compare check app validated] in Hrun.
  eexists. split; [exact Hrun|]. split; [reflexivity|].
  cbn [trace with_trace]. unfold price_of. rewrite Hmul. reflexivity.
Qed.

Lemma unknown_mode_rejected_witness :
  exists w',
    create_quote rail_100_5 sample_world = (Raise (ValidationError "Quote" ["mode"]), w') /\
    db w' = db sample_world.
Proof.
  destruct (unknown_mode_rejected rail_100_5 sample_world) as (w' & Hrun & Hdb & _).
  - cbn [In QuoteRequest.mode rail_100_5]. intros [H | [H | [H | []]]]; discriminate H.
  - vm_compute. reflexivity.
  - vm_compute. reflexivity.
  - exists w'. split; assumption.
Defined.

(** C3 as stated fails: (rail, 100, 5) has positive weight and volume and a
    mode outside sea, road and air, and the store is configured, yet no
    Quote is returned. *)
Lemma unknown_mode_not_quoted :
  ~ In (QuoteRequest.mode rail_100_5) ["sea"; "road"; "air"] /\
  gt0 (QuoteRequest.weight_kg rail_100_5) = true /\
  gt0 (QuoteRequest.volume_cbm rail_100_5) = true /\
  db sample_world = Some empty_store /\
  ~ exists q w', create_quote rail_100_5 sample_world = (Ok q, w').
Proof.
  split. { cbn [In QuoteRequest.mode rail_100_5]. intros [H | [H | [H | []]]]; discriminate H. }
  split; [vm_compute; reflexivity|]. split; [vm_compute; reflexivity|].
  split; [reflexivity|].
  intros (q & w' & H). vm_compute in H. discriminate H.
Qed.

End QuoteClaims.

(** * Bookings *)

Section BookingClaims.

Lemma lookup_append_to_same (cs : list (string * list Document)) (name : string)
  (doc : Document) :
  lookup (append_to cs name doc) name = Some (dict_get cs name [] ++ [doc]).
Proof.
  unfold dict_get. induction cs as [| [n docs] cs IH]; cbn [append_to lookup].
  - rewrite String.eqb_refl. reflexivity.
  - destruct (String.eqb n name) eqn:E; cbn [lookup]; rewrite E; [reflexivity | exact IH].
Qed.

Lemma lookup_append_to_other (cs : list (string * list Document)) (name other : string)
  (doc : Document) :
  name <> other -> lookup (append_to cs name doc) other = lookup cs other.
Proof.
  intros Hne. induction cs as [| [n docs] cs IH]; cbn [append_to lookup].
  - destruct (String.eqb_spec name other); [contradiction | reflexivity].
  - destruct (String.eqb_spec n name) as [-> | Hn]; cbn [lookup].
    + destruct (String.eqb_spec name other); [contradiction | reflexivity].
    + rewrite IH. reflexivity.
Qed.

Lemma find_collection_insert_same (d : Database) (name : string) (doc : Document) :
  find_collection (insert_one d name doc) name = find_collection d name ++ [doc].
Proof.
  unfold find_collection, insert_one. cbn [collections].
  unfold dict_get at 1. rewrite lookup_append_to_same. reflexivity.
Qed.

Lemma find_collection_insert_other (d : Database) (name other : string) (doc : Document) :
  name <> other ->
  find_collection (insert_one d name doc) other = find_collection d other.
Proof.
  intros Hne. unfold find_collection, insert_one, dict_get. cbn [collections].
  rewrite lookup_append_to_other by assumption. reflexivity.
Qed.

(** Inverting a successful booking. *)
Lemma book_shipment_ok_inv (booking : BookShipmentRequest.t) (w w' : World) (s : Shipment.t) :
  book_shipment booking w = (Ok s, w') ->
  exists d,
    db w = Some d /\
    s = Shipment.mk (tracking_of w) (BookShipmentRequest.origin booking)
          (BookShipmentRequest.destination booking) (BookShipmentRequest.mode booking)
          (BookShipmentRequest.weight_kg booking) (BookShipmentRequest.volume_cbm booking)
          (BookShipmentRequest.shipper_name booking)
          (BookShipmentRequest.shipper_email booking) "created" None /\
    In (BookShipmentRequest.mode booking) ["air"; "sea"; "road"] /\
    let event := TrackingEvent.mk (tracking_of w) "created"
                   (Some (BookShipmentRequest.origin booking)) None (utcnow w) in
    w' = mkWorld (Some (insert_one (insert_one d "shipment" (model_dump s))
                          "trackingevent" (model_dump event)))
           (utcnow w) (rng w) (drawn w + 8)%nat
           (trace w ++ [SInsert "shipment" (model_dump s);
                        SInsert "trackingevent" (model_dump event)]).
Proof.
  rewrite book_shipment_run. cbv zeta.
  destruct (Shipment.new _ _ _ _ _ _ _ _ _ _) as [s0 | e] eqn:E; [|discriminate].
  destruct (db w) as [d |]; [|discriminate].
  intros H. injection H as <- <-.
  apply shipment_new_inv in E as (-> & Hm & _).
  exists d. repeat split; assumption.
Qed.

Lemma book_shipment_succeeds (booking : BookShipmentRequest.t) (w : World) (d : Database) :
  db w = Some d ->
  In (BookShipmentRequest.mode booking) ["air"; "sea"; "road"] ->
  gt0 (BookShipmentRequest.weight_kg booking) = true ->
  gt0 (BookShipmentRequest.volume_cbm booking) = true ->
  exists s w', book_shipment booking w = (Ok s, w').
Proof.
  intros Hdb Hm Hw Hv. rewrite book_shipment_run. cbv zeta.
  rewrite (shipment_new_accepts _ _ _ _ _ _ _ _ Hm Hw Hv), Hdb. eauto.
Qed.

(** C6. A booking that succeeds has created and persisted exactly one
    TrackingEvent: the [trackingevent] collection grows by one document, the
    only [trackingevent] insert of the run; its status is "created", its
    tracking number is the new shipment's and its location is the request's
    origin. *)
Theorem booking_creates_one_event
  (booking : BookShipmentRequest.t) (w w' : World) (s : Shipment.t) :
  book_shipment booking w = (Ok s, w') ->
  exists (d d' : Database) (event : TrackingEvent.t),
    db w = Some d /\ db w' = Some d' /\
    find_collection d' "trackingevent"
    = find_collection d "trackingevent" ++ [model_dump event] /\
    trace w' = trace w ++ [SInsert "shipment" (model_dump s);
                           SInsert "trackingevent" (model_dump event)] /\
    TrackingEvent.status event = "created" /\
    TrackingEvent.tracking_number event = Shipment.tracking_number s /\
    TrackingEvent.location event = Some (BookShipmentRequest.origin booking).
Proof.
  intros H. apply book_shipment_ok_inv in H as (d & Hdb & -> & _ & ->).
  eexists d, _, (TrackingEvent.mk _ _ _ _ _).
  split; [assumption|]. split; [reflexivity|].
  split.
  { rewrite find_collection_insert_same, find_collection_insert_other by discriminate.
    reflexivity. }
  split; [reflexivity|]. repeat split.
Qed.

Lemma booking_creates_one_event_witness :
  exists (s : Shipment.t) (w' : World) (d' : Database) (event : TrackingEvent.t),
    book_shipment sample_booking sample_world = (Ok s, w') /\
    db w' = Some d' /\
    find_collection d' "trackingevent" = [model_dump event] /\
    TrackingEvent.status event = "created" /\
    TrackingEvent.tracking_number event = Shipment.tracking_number s /\
    TrackingEvent.location event = Some "Shanghai".
Proof.
  edestruct (booking_creates_one_event sample_booking sample_world)
    as (d & d' & event & Hd & Hd' & Hcoll & _ & Hst & Htn & Hloc).
  - vm_compute. reflexivity.
  - injection Hd as <-.
    eexists _, _, d', event. split; [vm_compute; reflexivity|].
    repeat split; assumption.
Defined.

Lemma draws_length (w : World) (population : string) (k : nat) :
  List.length (draws w population k) = k.
Proof. unfold draws. rewrite length_map, length_seq. reflexivity. Qed.

Lemma draws_from_population (w : World) (population : string) (k : nat) (c : ascii) :
  population <> ""%string ->
  In c (draws w population k) -> In c (list_ascii_of_string population).
Proof.
  intros Hne Hin. unfold draws in Hin. apply in_map_iff in Hin as (i & <- & _).
  apply nth_In. apply Nat.mod_upper_bound.
  destruct population; [contradiction | cbn; discriminate].
Qed.

Lemma string_length_of_list (l : list ascii) :
  String.length (string_of_list_ascii l) = List.length l.
Proof. induction l as [| c l IH]; cbn; [reflexivity | rewrite IH; reflexivity]. Qed.

(** The generated tracking number, whatever the random source yields. *)
Lemma tracking_of_shape (w : World) :
  exists suffix : string,
    tracking_of w = ("LGF-" ++ suffix)%string /\
    String.length suffix = 8%nat /\
    forall c, In c (list_ascii_of_string suffix) ->
      let n := nat_of_ascii c in
      ((65 <= n <= 90) \/ (48 <= n <= 57))%nat.
Proof.
  exists (string_of_list_ascii (draws w (ascii_uppercase ++ digits)%string 8)).
  split; [reflexivity|]. split.
  - rewrite string_length_of_list. apply draws_length.
  - intros c Hc. rewrite list_ascii_of_string_of_list_ascii in Hc.
    apply draws_from_population in Hc; [|discriminate].
    assert (Hall : forallb upper_or_digit
                     (list_ascii_of_string (ascii_uppercase ++ digits)%string) = true)
      by reflexivity.
    rewrite forallb_forall in Hall. specialize (Hall c Hc).
    unfold upper_or_digit in Hall. cbv zeta.
    apply orb_true_iff in Hall as [H | H]; apply andb_true_iff in H as [H1 H2];
      apply Nat.leb_le in H1, H2; [left | right]; split; assumption.
Qed.

(** C9. Whatever the random source yields, the tracking number of a booked
    shipment is "LGF-" followed by exactly 8 characters, each an upper-case
    letter A-Z (codes 65 to 90) or a digit 0-9 (codes 48 to 57). *)
Theorem tracking_number_shape
  (booking : BookShipmentRequest.t) (w w' : World) (s : Shipment.t) :
  book_shipment booking w = (Ok s, w') ->
  exists suffix : string,
    Shipment.tracking_number s = ("LGF-" ++ suffix)%string /\
    String.length suffix = 8%nat /\
    forall c, In c (list_ascii_of_string suffix) ->
      let n := nat_of_ascii c in
      ((65 <= n <= 90) \/ (48 <= n <= 57))%nat.
Proof.
  intros H. apply book_shipment_ok_inv in H as (d & _ & -> & _).
  cbn [Shipment.tracking_number]. apply tracking_of_shape.
Qed.

Lemma tracking_number_shape_witness :
  exists (s : Shipment.t) (w' : World) (suffix : string),
    book_shipment sample_booking sample_world = (Ok s, w') /\
    Shipment.tracking_number s = ("LGF-" ++ suffix)%string /\
    String.length suffix = 8%nat.
Proof.
  edestruct (tracking_number_shape sample_booking sample_world) as (suffix & Htn & Hlen & _).
  - vm_compute. reflexivity.
  - eexists _, _, suffix. split; [vm_compute; reflexivity|]. split; assumption.
Defined.

Lemma create_quote_ok_inv (payload : QuoteRequest.t) (w w' : World) (q : Quote.t) :
  create_quote payload w = (Ok q, w') ->
  exists d,
    db w = Some d /\
    q = Quote.mk (QuoteRequest.origin payload) (QuoteRequest.destination payload)
          (QuoteRequest.mode payload) (QuoteRequest.weight_kg payload)
          (QuoteRequest.volume_cbm payload)
          (price_of (QuoteRequest.mode payload) (QuoteRequest.weight_kg payload)
             (QuoteRequest.volume_cbm payload))
          (eta_of (QuoteRequest.mode payload)) /\
    In (QuoteRequest.mode payload) ["air"; "sea"; "road"] /\
    db w' = Some (insert_one d "quote" (model_dump q)).
Proof.
  rewrite create_quote_run. cbv zeta.
  destruct (Quote.new _ _ _ _ _ _ _) as [q0 | e] eqn:E; [|discriminate].
  destruct (db w) as [d |]; [|discriminate].
  intros H. injection H as <- <-.
  apply quote_new_inv in E as (-> & Hm & _).
  exists d. repeat split; assumption.
Qed.

Lemma create_quote_raise_inv (payload : QuoteRequest.t) (w w' : World) (e : exn) :
  create_quote payload w = (Raise e, w') -> db w' = db w.
Proof.
  rewrite create_quote_run. cbv zeta.
  destruct (Quote.new _ _ _ _ _ _ _) as [q0 | e0].
  - destruct (db w) as [d |] eqn:Hd; [discriminate|].
    intros H. injection H as _ <-. exact Hd.
  - intros H. injection H as _ <-. reflexivity.
Qed.

Lemma book_shipment_raise_inv (booking : BookShipmentRequest.t) (w w' : World) (e : exn) :
  book_shipment booking w = (Raise e, w') -> db w' = db w.
Proof.
  rewrite book_shipment_run. cbv zeta.
  destruct (Shipment.new _ _ _ _ _ _ _ _ _ _) as [s0 | e0].
  - destruct (db w) as [d |] eqn:Hd; [discriminate|].
    intros H. injection H as _ <-. exact Hd.
  - intros H. injection H as _ <-. reflexivity.
Qed.

(** C5. With no store connection configured, a well-formed quote request and
    a well-formed booking request (mode air, sea or road, positive weight and
    volume) both fail with the store's unavailable error, no request to
    either endpoint succeeds, and [GET /] still returns its liveness
    message; the helper [_collection] answers an HTTP 500 "Database not
    configured". *)
Theorem degraded_mode
  (w : World) (payload : QuoteRequest.t) (booking : BookShipmentRequest.t) (name : string) :
  db w = None ->
  (In (QuoteRequest.mode payload) ["air"; "sea"; "road"] ->
   gt0 (QuoteRequest.weight_kg payload) = true ->
   gt0 (QuoteRequest.volume_cbm payload) = true ->
   exists w', create_quote payload w = (Raise StorageUnavailable, w') /\ db w' = None) /\
  (In (BookShipmentRequest.mode booking) ["air"; "sea"; "road"] ->
   gt0 (BookShipmentRequest.weight_kg booking) = true ->
   gt0 (BookShipmentRequest.volume_cbm booking) = true ->
   exists w', book_shipment booking w = (Raise StorageUnavailable, w') /\ db w' = None) /\
  (forall q w', create_quote payload w <> (Ok q, w')) /\
  (forall s w', book_shipment booking w <> (Ok s, w')) /\
  read_root w = (Ok [("message", VStr "LogiFlow backend running")], w) /\
  _collection name w = (Raise (HTTPException 500 "Database not configured"), w).
Proof.
  intros Hdb. repeat split.
  - intros Hm Hw Hv. rewrite create_quote_run. cbv zeta.
    rewrite (quote_new_accepts _ _ _ _ _ _ _ Hm Hw Hv (price_of_gt0 _ _ _ Hw Hv)
               (eta_of_pos _)), Hdb.
    eexists. split; [reflexivity | exact Hdb].
  - intros Hm Hw Hv. rewrite book_shipment_run. cbv zeta.
    rewrite (shipment_new_accepts _ _ _ _ _ _ _ _ Hm Hw Hv), Hdb.
    eexists. split; [reflexivity | exact Hdb].
  - intros q w' H. apply create_quote_ok_inv in H as (d & Hd & _). congruence.
  - intros s w' H. apply book_shipment_ok_inv in H as (d & Hd & _). congruence.
  - unfold _collection. rewrite Hdb. reflexivity.
Qed.

Lemma degraded_mode_witness :
  (exists w', create_quote sea_10_2 degraded_world = (Raise StorageUnavailable, w')) /\
  (exists w', book_shipment sample_booking degraded_world = (Raise StorageUnavailable, w')) /\
  read_root degraded_world
  = (Ok [("message", VStr "LogiFlow backend running")], degraded_world).
Proof.
  destruct (degraded_mode degraded_world sea_10_2 sample_booking "quote" eq_refl)
    as (Hq & Hb & _ & _ & Hroot & _).
  split; [|split; [|exact Hroot]].
  - destruct Hq as (w' & H & _).
    + cbn [In QuoteRequest.mode sea_10_2]. auto.
    + vm_compute. reflexivity.
    + vm_compute. reflexivity.
    + exists w'. exact H.
  - destruct Hb as (w' & H & _).
    + cbn [In BookShipmentRequest.mode sample_booking]. auto.
    + vm_compute. reflexivity.
    + vm_compute. reflexivity.
    + exists w'. exact H.
Defined.

(** C10. Every Quote and Shipment that a schema constructor accepts, and so
    every one a handler returns or persists, has its mode among air, sea and
    road, and every Shipment has its status among created, booked,
    in_transit, customs, out_for_delivery and delivered; the document a
    successful request adds to the store is that entity's dump.  A request
    with any other mode is rejected by the constructor with a validation
    error naming [mode], and a request that fails leaves the store as it
    was. *)
Theorem schema_literals
  (w : World) (payload : QuoteRequest.t) (booking : BookShipmentRequest.t) :
  (forall origin destination mode weight_kg volume_cbm price_usd eta_days q,
      Quote.new origin destination mode weight_kg volume_cbm price_usd eta_days = Ok q ->
      In (Quote.mode q) ["air"; "sea"; "road"]) /\
  (forall tracking origin destination mode weight_kg volume_cbm name email status quote_id s,
      Shipment.new tracking origin destination mode weight_kg volume_cbm name email
        status quote_id = Ok s ->
      In (Shipment.mode s) ["air"; "sea"; "road"] /\
      In (Shipment.status s)
         ["created"; "booked"; "in_transit"; "customs"; "out_for_delivery"; "delivered"]) /\
  (forall q w', create_quote payload w = (Ok q, w') ->
      In (Quote.mode q) ["air"; "sea"; "road"] /\
      get (model_dump q) "mode" = VStr (Quote.mode q) /\
      exists d, db w = Some d /\ db w' = Some (insert_one d "quote" (model_dump q))) /\
  (forall s w', book_shipment booking w = (Ok s, w') ->
      In (Shipment.mode s) ["air"; "sea"; "road"] /\
      Shipment.status s = "created" /\
      get (model_dump s) "mode" = VStr (Shipment.mode s) /\
      get (model_dump s) "status" = VStr (Shipment.status s) /\
      exists d d', db w = Some d /\ db w' = Some d' /\
        find_collection d' "shipment" = find_collection d "shipment" ++ [model_dump s]) /\
  (~ In (QuoteRequest.mode payload) ["air"; "sea"; "road"] ->
   exists fields w',
     create_quote payload w = (Raise (ValidationError "Quote" fields), w') /\
     In "mode" fields /\ db w' = db w) /\
  (~ In (BookShipmentRequest.mode booking) ["air"; "sea"; "road"] ->
   exists fields w',
     book_shipment booking w = (Raise (ValidationError "Shipment" fields), w') /\
     In "mode" fields /\ db w' = db w) /\
  (forall e w', create_quote payload w = (Raise e, w') -> db w' = db w) /\
  (forall e w', book_shipment booking w = (Raise e, w') -> db w' = db w).
Proof.
  split.
  { intros * H. apply quote_new_inv in H as (-> & Hm & _). exact Hm. }
  split.
  { intros * H. apply shipment_new_inv in H as (-> & Hm & _ & _ & Hs). split; assumption. }
  split.
  { intros q w' H. apply create_quote_ok_inv in H as (d & Hd & -> & Hm & Hd').
    split; [exact Hm|]. split; [reflexivity|]. exists d. split; assumption. }
  split.
  { intros s w' H. apply book_shipment_ok_inv in H as (d & Hd & -> & Hm & ->).
    split; [exact Hm|]. repeat (split; [reflexivity|]).
    eexists d, _. split; [assumption|]. split; [reflexivity|].
    rewrite find_collection_insert_other by discriminate.
    apply find_collection_insert_same. }
  split.
  { intros Hm. rewrite create_quote_run. cbv zeta.
    assert (Hlit : is_literal modes (QuoteRequest.mode payload) = false).
    { destruct (is_literal modes (QuoteRequest.mode payload)) eqn:E; [|reflexivity].
      apply is_literal_In in E. contradiction. }
    unfold Quote.new. rewrite Hlit. cbn [check app validated].
    eexists. eexists. split; [reflexivity|]. split; [left; reflexivity | reflexivity]. }
  split.
  { intros Hm. rewrite book_shipment_run. cbv zeta.
    assert (Hlit : is_literal modes (BookShipmentRequest.mode booking) = false).
    { destruct (is_literal modes (BookShipmentRequest.mode booking)) eqn:E; [|reflexivity].
      apply is_literal_In in E. contradiction. }
    unfold Shipment.new. rewrite Hlit. cbn [check app validated].
    eexists. eexists. split; [reflexivity|]. split; [left; reflexivity | reflexivity]. }
  split.
  { intros e w'. apply create_quote_raise_inv. }
  { intros e w'. apply book_shipment_raise_inv. }
Qed.

Lemma schema_literals_witness :
  (exists q w', create_quote sea_10_2 sample_world = (Ok q, w') /\
                In (Quote.mode q) ["air"; "sea"; "road"]) /\
  (exists fields w',
     create_quote rail_100_5 sample_world = (Raise (ValidationError "Quote" fields), w') /\
     db w' = db sample_world) /\
  (exists fields w',
     book_shipment rail_booking sample_world = (Raise (ValidationError "Shipment" fields), w') /\
     db w' = db sample_world).
Proof.
  split; [|split].
  - destruct (schema_literals sample_world sea_10_2 sample_booking)
      as (_ & _ & Hq & _).
    eexists. eexists. split; [vm_compute; reflexivity|].
    eapply Hq. vm_compute. reflexivity.
  - destruct (schema_literals sample_world rail_100_5 rail_booking)
      as (_ & _ & _ & _ & Hq & _).
    destruct Hq as (fields & w' & H & _ & Hdb).
    + cbn [In QuoteRequest.mode rail_100_5]. intros [H | [H | [H | []]]]; discriminate H.
    + exists fields, w'. split; assumption.
  - destruct (schema_literals sample_world rail_100_5 rail_booking)
      as (_ & _ & _ & _ & _ & Hb & _).
    destruct Hb as (fields & w' & H & _ & Hdb).
    + cbn [In BookShipmentRequest.mode rail_booking].
      intros [H | [H | [H | []]]]; discriminate H.
    + exists fields, w'. split; assumption.
Defined.

End BookingClaims.

(** * Sorting *)

Section SortFacts.
Context {K V : Type}.
Variable lt : K -> K -> option bool.

Lemma insert_at_perm (l : nat) (pivot : K * V) (sorted : list (K * V)) :
  Permutation (pivot :: sorted) (firstn l sorted ++ pivot :: skipn l sorted).
Proof.
  rewrite <- (firstn_skipn l sorted) at 1. apply Permutation_middle.
Qed.

(** Whether it completes or aborts, [binarysort] only rearranges. *)
Lemma binarysort_perm (rest sorted : list (K * V)) (ok : bool) (r : list (K * V)) :
  binarysort lt sorted rest = (ok, r) -> Permutation (sorted ++ rest) r.
Proof.
  revert sorted. induction rest as [| pivot rest IH]; intros sorted H; cbn [binarysort] in H.
  - injection H as _ <-. rewrite app_nil_r. apply Permutation_refl.
  - destruct (bisect lt _ _ _ _ _) as [l |].
    + apply IH in H. eapply Permutation_trans; [|exact H].
      rewrite <- app_assoc. cbn [app].
      eapply Permutation_trans; [apply Permutation_sym, Permutation_middle|].
      eapply Permutation_trans; [|apply Permutation_middle].
      apply perm_skip. rewrite app_assoc, firstn_skipn. apply Permutation_refl.
    + injection H as _ <-. apply Permutation_refl.
Qed.

Lemma sort_keyed_perm (a : list (K * V)) (ok : bool) (r : list (K * V)) :
  sort_keyed lt a = (ok, r) -> Permutation a r.
Proof.
  unfold sort_keyed. destruct (List.length a <? 2)%nat.
  - intros H. injection H as _ <-. apply Permutation_refl.
  - destruct (count_run lt a) as [[n descending] |].
    + intros H. apply binarysort_perm in H.
      eapply Permutation_trans; [|exact H].
      rewrite <- (firstn_skipn n a) at 1. apply Permutation_app_tail.
      destruct descending; [apply Permutation_rev | apply Permutation_refl].
    + intros H. injection H as _ <-. apply Permutation_refl.
Qed.

End SortFacts.

Lemma list_sort_perm {K V} (lt : K -> K -> option bool) (key : V -> K) (l : list V) :
  Permutation l (snd (list_sort lt key l)).
Proof.
  unfold list_sort.
  destruct (sort_keyed lt (map (fun v => (key v, v)) l)) as [ok kvs] eqn:E. cbn [snd].
  apply sort_keyed_perm in E. apply (Permutation_map snd) in E.
  rewrite map_map in E. cbn [snd] in E. rewrite map_id in E. exact E.
Qed.

Section SortedFacts.
Context {A : Type}.
Variable R : A -> A -> Prop.

Lemma StronglySorted_app (l1 l2 : list A) :
  StronglySorted R l1 -> StronglySorted R l2 ->
  (forall a b, In a l1 -> In b l2 -> R a b) ->
  StronglySorted R (l1 ++ l2).
Proof.
  induction l1 as [| x l1 IH]; intros H1 H2 Hx; cbn [app]; [assumption|].
  apply StronglySorted_inv in H1 as [H1 Hhd]. constructor.
  - apply IH; [assumption | assumption |]. intros a b Ha Hb. apply Hx; [right|]; assumption.
  - apply Forall_app. split; [assumption|].
    apply Forall_forall. intros b Hb. apply Hx; [left; reflexivity | assumption].
Qed.

Lemma StronglySorted_app_inv (l1 l2 : list A) :
  StronglySorted R (l1 ++ l2) ->
  StronglySorted R l1 /\ StronglySorted R l2 /\
  (forall a b, In a l1 -> In b l2 -> R a b).
Proof.
  induction l1 as [| x l1 IH]; cbn [app]; intros H.
  - split; [constructor|]. split; [assumption|]. intros a b [].
  - apply StronglySorted_inv in H as [H Hhd]. apply IH in H as (H1 & H2 & Hx).
    apply Forall_app in Hhd as [Hhd1 Hhd2].
    split; [constructor; assumption|]. split; [assumption|].
    intros a b [<- | Ha] Hb; [|apply Hx; assumption].
    rewrite Forall_forall in Hhd2. apply Hhd2. assumption.
Qed.

Lemma StronglySorted_rev (l : list A) :
  StronglySorted (fun x y => R y x) l -> StronglySorted R (rev l).
Proof.
  induction 1 as [| x l Hl IH Hhd]; cbn [rev]; [constructor|].
  apply StronglySorted_app; [assumption | repeat constructor |].
  intros a b Ha [<- | []]. rewrite Forall_forall in Hhd. apply Hhd.
  apply in_rev. assumption.
Qed.

End SortedFacts.

Lemma Forall_firstn {A} (P : A -> Prop) (n : nat) (l : list A) :
  Forall P l -> Forall P (firstn n l).
Proof.
  intros H. rewrite <- (firstn_skipn n l) in H. apply Forall_app in H. apply H.
Qed.

Lemma Forall_skipn {A} (P : A -> Prop) (n : nat) (l : list A) :
  Forall P l -> Forall P (skipn n l).
Proof.
  intros H. rewrite <- (firstn_skipn n l) in H. apply Forall_app in H. apply H.
Qed.

Section SortCorrect.
Context {K V : Type}.
Variable lt : K -> K -> option bool.
Variable rank : K -> Z.
Variable good : K -> Prop.
Hypothesis lt_good :
  forall a b, good a -> good b -> lt a b = Some (rank a <? rank b).

Local Abbreviation R := (@key_le K V rank).
Local Abbreviation good_item := (fun x : K * V => good (fst x)).

Lemma key_le_trans : Relations_1.Transitive R.
Proof. intros x y z. unfold key_le. lia. Qed.

(** In a sorted list the item at [p] bounds what is before and after it. *)
Lemma sorted_split (a : list (K * V)) (p : nat) (x : K * V) :
  StronglySorted R a -> nth_error a p = Some x ->
  Forall (fun y => R y x) (firstn (S p) a) /\ Forall (fun y => R x y) (skipn p a).
Proof.
  intros Hs. revert p. induction Hs as [| h t Ht IH Hhd]; intros p Hp.
  - destruct p; discriminate.
  - destruct p as [| p]; cbn [nth_error] in Hp.
    + injection Hp as <-. cbn [firstn skipn]. split.
      * constructor; [unfold key_le; lia | constructor].
      * constructor; [unfold key_le; lia | assumption].
    + destruct (IH p Hp) as [H1 H2]. split; [|exact H2].
      cbn [firstn]. constructor; [|exact H1].
      rewrite Forall_forall in Hhd. apply Hhd. eapply nth_error_In. exact Hp.
Qed.

Lemma bisect_spec (fuel : nat) (pivot : K) (a : list (K * V)) (l r : nat) :
  StronglySorted R a -> Forall good_item a -> good pivot ->
  (l <= r <= List.length a)%nat -> (r - l <= fuel)%nat ->
  Forall (fun x => rank (fst x) <= rank pivot) (firstn l a) ->
  Forall (fun x => rank pivot < rank (fst x)) (skipn r a) ->
  exists i,
    bisect lt fuel pivot a l r = Some i /\
    Forall (fun x => rank (fst x) <= rank pivot) (firstn i a) /\
    Forall (fun x => rank pivot < rank (fst x)) (skipn i a).
Proof.
  intros Hs Hg Hp. revert l r.
  induction fuel as [| fuel IH]; intros l r Hlr Hfuel Hlo Hhi; cbn [bisect].
  - assert (l = r) by lia. subst r. exists l. auto.
  - destruct (Nat.ltb_spec l r) as [Hlt | Hge].
    2:{ assert (l = r) by lia. subst r. exists l. auto. }
    set (p := (l + (r - l) / 2)%nat).
    assert (Hpr : (l <= p < r)%nat).
    { subst p. pose proof (Nat.Div0.div_lt_upper_bound (r - l) 2 (r - l)). lia. }
    destruct (nth_error a p) as [[kp vp] |] eqn:Enth.
    2:{ apply nth_error_None in Enth. lia. }
    pose proof (nth_error_In _ _ Enth) as Hin.
    rewrite Forall_forall in Hg. pose proof (Hg _ Hin) as Hgp. cbn [fst] in Hgp.
    rewrite (lt_good _ _ Hp Hgp).
    destruct (sorted_split a p (kp, vp) Hs Enth) as [Hbefore Hafter].
    destruct (Z.ltb_spec (rank pivot) (rank kp)) as [Hc | Hc].
    + apply IH; [lia | lia | assumption |].
      eapply Forall_impl; [|exact Hafter]. unfold key_le. cbn [fst]. intros y. lia.
    + apply IH; [lia | lia | | assumption].
      eapply Forall_impl; [|exact Hbefore]. unfold key_le. cbn [fst]. intros y. lia.
Qed.

Lemma insert_sorted (a : list (K * V)) (i : nat) (x : K * V) :
  StronglySorted R a ->
  Forall (fun y => rank (fst y) <= rank (fst x)) (firstn i a) ->
  Forall (fun y => rank (fst x) < rank (fst y)) (skipn i a) ->
  StronglySorted R (firstn i a ++ x :: skipn i a).
Proof.
  intros Hs Hlo Hhi. rewrite <- (firstn_skipn i a) in Hs.
  apply StronglySorted_app_inv in Hs as (H1 & H2 & Hx).
  rewrite Forall_forall in Hlo, Hhi.
  apply StronglySorted_app; [assumption | |].
  - constructor; [assumption|]. apply Forall_forall. intros y Hy.
    specialize (Hhi y Hy). unfold key_le. lia.
  - intros y z Hy [<- | Hz].
    + apply Hlo. assumption.
    + specialize (Hlo y Hy). specialize (Hhi z Hz). unfold key_le. lia.
Qed.

Lemma binarysort_sorted (rest sorted : list (K * V)) :
  StronglySorted R sorted -> Forall good_item sorted -> Forall good_item rest ->
  exists r, binarysort lt sorted rest = (true, r) /\ StronglySorted R r.
Proof.
  revert sorted. induction rest as [| pivot rest IH]; intros sorted Hs Hg Hr;
    cbn [binarysort].
  - exists sorted. auto.
  - apply Forall_cons_iff in Hr as [Hp Hr].
    destruct (bisect_spec (List.length sorted) (fst pivot) sorted 0 (List.length sorted))
      as (i & -> & Hlo & Hhi); try assumption; try lia.
    { constructor. }
    { rewrite skipn_all. constructor. }
    apply IH; [apply insert_sorted; assumption | | assumption].
    apply Forall_app. split; [apply Forall_firstn; assumption|].
    constructor; [assumption | apply Forall_skipn; assumption].
Qed.

Lemma run_ascending_sorted (l : list (K * V)) (prev : K * V) :
  good (fst prev) -> Forall good_item l ->
  exists n, run_ascending lt (fst prev) l = Some n /\ Sorted R (prev :: firstn n l).
Proof.
  revert prev. induction l as [| [k v] l IH]; intros prev Hp Hl; cbn [run_ascending].
  - exists 0%nat. split; [reflexivity|]. repeat constructor.
  - apply Forall_cons_iff in Hl as [Hk Hl]. cbn [fst] in Hk.
    rewrite (lt_good _ _ Hk Hp).
    destruct (Z.ltb_spec (rank k) (rank (fst prev))) as [Hc | Hc].
    + exists 0%nat. split; [reflexivity|]. repeat constructor.
    + destruct (IH (k, v) Hk Hl) as (n & Hn & Hs). cbn [fst] in Hn. rewrite Hn.
      exists (S n).
      split; [reflexivity|]. cbn [firstn]. constructor; [assumption|].
      constructor. unfold key_le. cbn [fst]. lia.
Qed.

Lemma run_descending_sorted (l : list (K * V)) (prev : K * V) :
  good (fst prev) -> Forall good_item l ->
  exists n, run_descending lt (fst prev) l = Some n /\
            Sorted (fun x y => R y x) (prev :: firstn n l).
Proof.
  revert prev. induction l as [| [k v] l IH]; intros prev Hp Hl; cbn [run_descending].
  - exists 0%nat. split; [reflexivity|]. repeat constructor.
  - apply Forall_cons_iff in Hl as [Hk Hl]. cbn [fst] in Hk.
    rewrite (lt_good _ _ Hk Hp).
    destruct (Z.ltb_spec (rank k) (rank (fst prev))) as [Hc | Hc].
    + destruct (IH (k, v) Hk Hl) as (n & Hn & Hs). cbn [fst] in Hn. rewrite Hn.
      exists (S n).
      split; [reflexivity|]. cbn [firstn]. constructor; [assumption|].
      constructor. unfold key_le. cbn [fst]. lia.
    + exists 0%nat. split; [reflexivity|]. repeat constructor.
Qed.

Lemma count_run_sorted (a : list (K * V)) :
  Forall good_item a ->
  exists n descending,
    count_run lt a = Some (n, descending) /\
    StronglySorted R (if descending then rev (firstn n a) else firstn n a).
Proof.
  intros Ha. destruct a as [| [k0 v0] [| [k1 v1] a]]; cbn [count_run].
  - exists 0%nat, false. split; [reflexivity | constructor].
  - exists 1%nat, false. split; [reflexivity | repeat constructor].
  - apply Forall_cons_iff in Ha as [H0 Ha]. apply Forall_cons_iff in Ha as [H1 Ha].
    cbn [fst] in H0, H1. rewrite (lt_good _ _ H1 H0).
    destruct (Z.ltb_spec (rank k1) (rank k0)) as [Hc | Hc].
    + destruct (run_descending_sorted a (k1, v1) H1 Ha) as (n & Hn & Hs).
      cbn [fst] in Hn. rewrite Hn. exists (2 + n)%nat, true.
      split; [reflexivity|]. apply StronglySorted_rev.
      apply Sorted_StronglySorted.
      { intros x y z. unfold key_le. lia. }
      cbn [firstn Nat.add]. constructor; [assumption|].
      constructor. unfold key_le. cbn [fst]. lia.
    + destruct (run_ascending_sorted a (k1, v1) H1 Ha) as (n & Hn & Hs).
      cbn [fst] in Hn. rewrite Hn. exists (2 + n)%nat, false.
      split; [reflexivity|].
      apply Sorted_StronglySorted; [exact key_le_trans|].
      cbn [firstn Nat.add]. constructor; [assumption|].
      constructor. unfold key_le. cbn [fst]. lia.
Qed.

(** When every key is comparable the sort completes and its result is in
    non-decreasing key order. *)
Lemma sort_keyed_sorted (a : list (K * V)) :
  Forall good_item a ->
  exists r, sort_keyed lt a = (true, r) /\ StronglySorted R r.
Proof.
  intros Ha. unfold sort_keyed.
  destruct (Nat.ltb_spec (List.length a) 2) as [Hlen | Hlen].
  - exists a. split; [reflexivity|].
    destruct a as [| x [| y a]]; [constructor | repeat constructor | cbn in Hlen; lia].
  - destruct (count_run_sorted a Ha) as (n & descending & -> & Hs).
    apply binarysort_sorted; [assumption | | apply Forall_skipn; assumption].
    destruct descending; [apply Forall_rev|]; apply Forall_firstn; assumption.
Qed.

End SortCorrect.

Lemma list_sort_sorted {K V} (lt : K -> K -> option bool) (rank : K -> Z)
  (good : K -> Prop) (key : V -> K) (l : list V) :
  (forall a b, good a -> good b -> lt a b = Some (rank a <? rank b)) ->
  Forall (fun v => good (key v)) l ->
  exists r,
    list_sort lt key l = (true, r) /\
    StronglySorted (fun x y => rank (key x) <= rank (key y)) r /\
    Permutation l r.
Proof.
  intros Hlt Hl.
  pose proof (list_sort_perm lt key l) as Hperm. unfold list_sort in *.
  set (kvs := map (fun v => (key v, v)) l) in *.
  assert (Hgood : Forall (fun x : K * V => good (fst x)) kvs).
  { subst kvs. apply Forall_map. exact Hl. }
  assert (Hkey : Forall (fun x : K * V => fst x = key (snd x)) kvs).
  { subst kvs. apply Forall_map. apply Forall_forall. reflexivity. }
  destruct (sort_keyed_sorted lt rank good Hlt kvs Hgood) as (r & E & Hs).
  rewrite E in *. cbn [snd] in Hperm.
  exists (map snd r). split; [reflexivity|]. split; [|exact Hperm].
  apply sort_keyed_perm in E. apply (Permutation_Forall E) in Hkey.
  clear - Hs Hkey. induction Hs as [| x r Hr IH Hhd]; cbn [map]; [constructor|].
  apply Forall_cons_iff in Hkey as [Hx Hkey]. constructor; [apply IH; assumption|].
  apply Forall_map. rewrite Forall_forall in *. intros y Hy.
  specialize (Hhd y Hy). specialize (Hkey y Hy). unfold key_le in Hhd. congruence.
Qed.

(** * Tracking *)

Section TrackingClaims.

Lemma by_tracking_number_iff (x : string) (doc : Document) :
  by_tracking_number x doc = true <-> lookup doc "tracking_number" = Some (VStr x).
Proof.
  unfold by_tracking_number, matches. cbn [forallb fst snd]. rewrite andb_true_r.
  destruct (lookup doc "tracking_number") as [v |]; [|split; discriminate].
  destruct v; cbn [value_eqb]; try (split; discriminate).
  rewrite String.eqb_eq. split; congruence.
Qed.

(** Without an explicit limit the store hands back at most 50 documents, so
    [get_tracking] sorts a list well inside the range of the sort model. *)
Lemma get_documents_default_limit (name : string) (filter : Document)
  (w w' : World) (docs : list Document) :
  get_documents name filter None w = (Ok docs, w') -> (List.length docs <= 50)%nat.
Proof.
  unfold get_documents. destruct (db w) as [d |]; [|discriminate].
  set (matching := List.filter (matches filter) (find_collection d name)).
  generalize 50%nat. intros n H. injection H as <- _. apply firstn_le_length.
Qed.

(** What [get_tracking] does, step by step. *)
Lemma get_tracking_run (x : string) (w : World) :
  get_tracking x w =
  match db w with
  | None => (Raise StorageUnavailable, w)
  | Some d =>
      match firstn 50 (filter (by_tracking_number x) (find_collection d "trackingevent")) with
      | [] => (Raise (HTTPException 404 "Tracking number not found"), w)
      | e :: es =>
          (Ok (mkTrackingResponse x
                 (snd (list_sort py_lt (fun e => get e "timestamp") (e :: es)))), w)
      end
  end.
Proof.
  unfold get_tracking, bind, get_documents, by_tracking_number.
  destruct (db w) as [d |]; [|reflexivity].
  destruct (firstn 50 _) as [| e es]; reflexivity.
Qed.

Lemma py_lt_datetime (a b : value) :
  (exists t, a = VDatetime t) -> (exists t, b = VDatetime t) ->
  py_lt a b = Some ((match a with VDatetime t => t | _ => 0 end)
                    <? (match b with VDatetime t => t | _ => 0 end)).
Proof. intros [t ->] [t' ->]. reflexivity. Qed.

(** Whatever the timestamps are, a non-empty retrieval is answered, never
    raised, with a rearrangement of what was retrieved. *)
Lemma get_tracking_answers (x : string) (w : World) (d : Database) :
  db w = Some d ->
  let retrieved :=
    firstn 50 (filter (by_tracking_number x) (find_collection d "trackingevent")) in
  retrieved <> [] ->
  exists evs,
    get_tracking x w = (Ok (mkTrackingResponse x evs), w) /\ Permutation retrieved evs.
Proof.
  intros Hdb retrieved Hne. rewrite get_tracking_run, Hdb. fold retrieved.
  destruct retrieved as [| e es] eqn:E; [contradiction|].
  eexists. split; [reflexivity|]. apply list_sort_perm.
Qed.

(** When every retrieved event carries a datetime the answer is in ascending
    timestamp order. *)
Lemma get_tracking_sorted (x : string) (w : World) (d : Database) :
  db w = Some d ->
  let retrieved :=
    firstn 50 (filter (by_tracking_number x) (find_collection d "trackingevent")) in
  retrieved <> [] ->
  Forall has_timestamp retrieved ->
  exists evs,
    get_tracking x w = (Ok (mkTrackingResponse x evs), w) /\
    Permutation retrieved evs /\
    StronglySorted (fun a b => timestamp_of a <= timestamp_of b) evs.
Proof.
  intros Hdb retrieved Hne Hts. rewrite get_tracking_run, Hdb. fold retrieved.
  destruct (list_sort_sorted py_lt (fun v => match v with VDatetime t => t | _ => 0 end)
              (fun v => exists t, v = VDatetime t)
              (fun e => get e "timestamp") retrieved py_lt_datetime Hts)
    as (r & E & Hs & Hp).
  destruct retrieved as [| e es]; [contradiction|].
  rewrite E. cbn [snd]. exists r. repeat split; assumption.
Qed.

Lemma filter_nil_iff {A} (f : A -> bool) (l : list A) :
  filter f l = [] <-> forall a, In a l -> f a = false.
Proof.
  induction l as [| h t IH]; cbn [filter].
  - split; [intros _ a [] | reflexivity].
  - destruct (f h) eqn:E; split.
    + discriminate.
    + intros H. specialize (H h (or_introl eq_refl)). congruence.
    + intros H a [<- | Ha]; [assumption | apply IH; assumption].
    + intros H. apply IH. intros a Ha. apply H. right. assumption.
Qed.

Lemma firstn_nonempty {A} (n : nat) (l : list A) : l <> [] -> firstn (S n) l <> [].
Proof. destruct l; [contradiction | discriminate]. Qed.

(** C7. With a store configured: when no stored tracking event has
    tracking number [x], [GET /api/track/x] fails with HTTP 404 "Tracking
    number not found"; when at least one has, it answers with
    [{tracking_number: x, events}], where the events are not empty and each
    is a stored event of [x]. *)
Theorem tracking_found_or_404 (x : string) (w : World) (d : Database) :
  db w = Some d ->
  ((forall doc, In doc (find_collection d "trackingevent") ->
                lookup doc "tracking_number" <> Some (VStr x)) ->
   get_tracking x w = (Raise (HTTPException 404 "Tracking number not found"), w)) /\
  ((exists doc, In doc (find_collection d "trackingevent") /\
                lookup doc "tracking_number" = Some (VStr x)) ->
   exists evs,
     get_tracking x w = (Ok (mkTrackingResponse x evs), w) /\
     evs <> [] /\
     forall e, In e evs ->
       In e (find_collection d "trackingevent") /\
       lookup e "tracking_number" = Some (VStr x)).
Proof.
  intros Hdb. split.
  - intros Hnone. rewrite get_tracking_run, Hdb.
    replace (filter (by_tracking_number x) (find_collection d "trackingevent")) with
      (@nil Document); [reflexivity|].
    symmetry. apply filter_nil_iff. intros doc Hdoc.
    destruct (by_tracking_number x doc) eqn:E; [|reflexivity].
    apply by_tracking_number_iff in E. apply Hnone in Hdoc. contradiction.
  - intros (doc & Hdoc & Hx).
    assert (Hne : filter (by_tracking_number x) (find_collection d "trackingevent") <> []).
    { intros E. rewrite filter_nil_iff in E. specialize (E doc Hdoc).
      apply by_tracking_number_iff in Hx. congruence. }
    destruct (get_tracking_answers x w d Hdb (firstn_nonempty 49 _ Hne)) as (evs & Hrun & Hp).
    exists evs. split; [exact Hrun|]. split.
    + intros ->. apply Permutation_sym, Permutation_nil in Hp.
      revert Hp. apply firstn_nonempty. exact Hne.
    + intros e He. apply Permutation_sym in Hp. apply (Permutation_in _ Hp) in He.
      rewrite <- (firstn_skipn 50 (filter _ _)) in Hne.
      assert (Hin : In e (filter (by_tracking_number x) (find_collection d "trackingevent"))).
      { rewrite <- (firstn_skipn 50 (filter _ _)). apply in_or_app. left. exact He. }
      apply filter_In in Hin as [Hin Hm]. split; [exact Hin|].
      apply by_tracking_number_iff. exact Hm.
Qed.

Lemma tracking_found_or_404_witness :
  get_tracking "LGF-ZZZZZZZZ" (world_of dated_unordered)
  = (Raise (HTTPException 404 "Tracking number not found"), world_of dated_unordered) /\
  exists evs,
    get_tracking "LGF-BBBBBBBB" (world_of dated_unordered)
    = (Ok (mkTrackingResponse "LGF-BBBBBBBB" evs), world_of dated_unordered) /\
    evs <> [].
Proof.
  split.
  - apply (tracking_found_or_404 "LGF-ZZZZZZZZ" (world_of dated_unordered) _ eq_refl).
    intros doc Hdoc. vm_compute in Hdoc.
    repeat (destruct Hdoc as [<- | Hdoc]; [discriminate|]). destruct Hdoc.
  - destruct (tracking_found_or_404 "LGF-BBBBBBBB" (world_of dated_unordered) _ eq_refl)
      as [_ H].
    destruct H as (evs & Hrun & Hne & _).
    + exists (event_doc "LGF-BBBBBBBB" (VDatetime 5)). split; [|reflexivity].
      vm_compute. right. left. reflexivity.
    + exists evs. split; assumption.
Defined.

(** C8, the failing input.  Four events of one tracking number are retrieved
    in the order 10, 30, 20, undated.  The in-place sort has already moved
    the event dated 20 before the one dated 30 when comparing the undated
    event raises; the exception is swallowed and the answer carries the
    events in the order 10, 20, 30, undated, not in retrieval order. *)
Theorem tracking_sort_aborts_midway :
  let x := "LGF-AAAAAAAA"%string in
  find_collection (mkDatabase [("trackingevent", undated_last)] 4) "trackingevent"
  = [event_doc x (VDatetime 10); event_doc x (VDatetime 30);
     event_doc x (VDatetime 20); event_without_timestamp x] /\
  get (event_without_timestamp x) "timestamp" = VNone /\
  list_sort py_lt (fun e => get e "timestamp") undated_last
  = (false, [event_doc x (VDatetime 10); event_doc x (VDatetime 20);
             event_doc x (VDatetime 30); event_without_timestamp x]) /\
  get_tracking x (world_of undated_last)
  = (Ok (mkTrackingResponse x
           [event_doc x (VDatetime 10); event_doc x (VDatetime 20);
            event_doc x (VDatetime 30); event_without_timestamp x]),
     world_of undated_last).
Proof.
  cbv zeta. repeat split; vm_compute; reflexivity.
Qed.

(** The sort-or-skip of [get_tracking] on comparable timestamps: the events
    of "LGF-AAAAAAAA", retrieved in the order 30, 10, 20, are answered in
    the order 10, 20, 30. *)
Example tracking_sorted_sample :
  exists evs,
    get_tracking "LGF-AAAAAAAA" (world_of dated_unordered)
    = (Ok (mkTrackingResponse "LGF-AAAAAAAA" evs), world_of dated_unordered) /\
    map timestamp_of evs = [10; 20; 30].
Proof.
  edestruct (get_tracking_sorted "LGF-AAAAAAAA" (world_of dated_unordered))
    as (evs & Hrun & _ & _).
  - reflexivity.
  - vm_compute. discriminate.
  - vm_compute. repeat constructor; eexists; reflexivity.
  - exists evs. split; [exact Hrun|].
    vm_compute in Hrun. injection Hrun as <-. reflexivity.
Qed.

End TrackingClaims.

(** * Beyond the claims: outcomes of the two POST handlers *)

Section PostOutcomes.





(** X3. Validation comes before storage.  A request whose mode is not a
    schema literal, or whose weight or volume is not [> 0], is rejected with
    the constructor's validation error whether or not a store is
    configured; the error names at least one field and the store is left as
    it was. *)
Theorem validation_precedes_storage
  (payload : QuoteRequest.t) (booking : BookShipmentRequest.t) (w : World) :
  (~ In (QuoteRequest.mode payload) ["air"; "sea"; "road"] \/
   gt0 (QuoteRequest.weight_kg payload) = false \/
   gt0 (QuoteRequest.volume_cbm payload) = false ->
   exists fields w',
     create_quote payload w = (Raise (ValidationError "Quote" fields), w') /\
     fields <> [] /\ db w' = db w) /\
  (~ In (BookShipmentRequest.mode booking) ["air"; "sea"; "road"] \/
   gt0 (BookShipmentRequest.weight_kg booking) = false \/
   gt0 (BookShipmentRequest.volume_cbm booking) = false ->
   exists fields w',
     book_shipment booking w = (Raise (ValidationError "Shipment" fields), w') /\
     fields <> [] /\ db w' = db w).
Proof.
  split; intros H.
  - rewrite create_quote_run. cbv zeta.
    destruct (Quote.new _ _ _ _ _ _ _) as [q | e] eqn:E.
    + apply quote_new_inv in E as (_ & Hm & Hw & Hv).
      destruct H as [H | [H | H]]; [contradiction | congruence | congruence].
    + unfold Quote.new, validated in E.
      destruct (_ ++ _) as [| f fs] in E; [discriminate|]. injection E as <-.
      eexists. eexists. split; [reflexivity|]. split; [discriminate | reflexivity].
  - rewrite book_shipment_run. cbv zeta.
    destruct (Shipment.new _ _ _ _ _ _ _ _ _ _) as [s | e] eqn:E.
    + apply shipment_new_inv in E as (_ & Hm & Hw & Hv & _).
      destruct H as [H | [H | H]]; [contradiction | congruence | congruence].
    + unfold Shipment.new, validated in E.
      destruct (_ ++ _) as [| f fs] in E; [discriminate|]. injection E as <-.
      eexists. eexists. split; [reflexivity|]. split; [discriminate | reflexivity].
Qed.

Lemma validation_precedes_storage_witness :
  (exists fields w',
     create_quote rail_100_5 degraded_world = (Raise (ValidationError "Quote" fields), w')) /\
  (exists fields w',
     book_shipment zero_volume_booking degraded_world
     = (Raise (ValidationError "Shipment" fields), w')).
Proof.
  destruct (validation_precedes_storage rail_100_5 zero_volume_booking degraded_world)
    as [Hq Hb].
  split.
  - destruct Hq as (fields & w' & H & _).
    + left. cbn [In QuoteRequest.mode rail_100_5]. intros [H | [H | [H | []]]]; discriminate H.
    + exists fields, w'. exact H.
  - destruct Hb as (fields & w' & H & _).
    + right. right. vm_compute. reflexivity.
    + exists fields, w'. exact H.
Defined.

(** X4. For every mode string, known or not, and positive weight and
    volume, the computed price is positive (finite or [+inf], never zero,
    negative or NaN) and the computed ETA is one of 21, 7, 3 and 14 days:
    the [price_usd] and [eta_days] constraints of [Quote] never reject a
    computed value. *)
Theorem computed_price_and_eta_in_range (mode : string) (weight_kg volume_cbm : float) :
  gt0 weight_kg = true -> gt0 volume_cbm = true ->
  gt0 (price_of mode weight_kg volume_cbm) = true /\
  price_of mode weight_kg volume_cbm <> S754_nan /\
  In (eta_of mode) [21; 7; 3; 14].
Proof.
  intros Hw Hv. pose proof (price_of_gt0 mode _ _ Hw Hv) as Hp.
  split; [exact Hp|]. split.
  - intros E. rewrite E in Hp. discriminate Hp.
  - unfold eta_of, dict_get, etas. cbn [lookup].
    destruct (String.eqb "sea" mode); [cbn; auto|].
    destruct (String.eqb "road" mode); [cbn; auto|].
    destruct (String.eqb "air" mode); cbn; auto.
Qed.

Lemma computed_price_and_eta_in_range_witness :
  gt0 (price_of "rail" (of_int 100) (of_int 5)) = true /\ In (eta_of "rail") [21; 7; 3; 14].
Proof.
  destruct (computed_price_and_eta_in_range "rail" (of_int 100) (of_int 5)) as (Hp & _ & He).
  - vm_compute. reflexivity.
  - vm_compute. reflexivity.
  - split; assumption.
Defined.

Lemma fadd_inf_l (y : float) : nonneg y -> fadd (S754_infinity false) y = S754_infinity false.
Proof.
  destruct y as [[] | [] | | [] m e]; cbn [nonneg]; try contradiction; reflexivity.
Qed.

Lemma fadd_inf_r (x : float) : nonneg x -> fadd x (S754_infinity false) = S754_infinity false.
Proof.
  destruct x as [[] | [] | | [] m e]; cbn [nonneg]; try contradiction; reflexivity.
Qed.

Lemma price_of_infinite (mode : string) (weight_kg volume_cbm : float) :
  (weight_kg = S754_infinity false /\ gt0 volume_cbm = true) \/
  (gt0 weight_kg = true /\ volume_cbm = S754_infinity false) ->
  price_of mode weight_kg volume_cbm = S754_infinity false.
Proof.
  intros H. unfold price_of.
  destruct (multiplier_finite mode) as (mm & me & ->).
  rewrite of_int_50, of_int_20, literal_8_10.
  assert (Hsum : (weight_kg * S754_finite false 7205759403792794 (-53)
                  + volume_cbm * S754_finite false 5629499534213120 (-48))%pf
                 = S754_infinity false).
  { destruct H as [[-> Hv] | [Hw ->]].
    - apply gt0_is_pos, is_pos_nonneg in Hv.
      change (S754_infinity false * S754_finite false 7205759403792794 (-53))%pf
        with (S754_infinity false).
      apply fadd_inf_l. apply fmul_nonneg. assumption.
    - apply gt0_is_pos, is_pos_nonneg in Hw.
      change (S754_infinity false * S754_finite false 5629499534213120 (-48))%pf
        with (S754_infinity false).
      apply fadd_inf_r. apply fmul_nonneg. assumption. }
  rewrite Hsum. reflexivity.
Qed.

(** X5. Nothing bounds the inputs from above: with a store configured and a
    valid mode, a request whose weight or volume is [+inf] (the other being
    positive) is accepted and the Quote returned and persisted has
    [price_usd = +inf]. *)
Theorem infinite_input_priced_infinite
  (payload : QuoteRequest.t) (w : World) (d : Database) :
  db w = Some d ->
  In (QuoteRequest.mode payload) ["air"; "sea"; "road"] ->
  (QuoteRequest.weight_kg payload = S754_infinity false /\
   gt0 (QuoteRequest.volume_cbm payload) = true) \/
  (gt0 (QuoteRequest.weight_kg payload) = true /\
   QuoteRequest.volume_cbm payload = S754_infinity false) ->
  exists q w',
    create_quote payload w = (Ok q, w') /\
    Quote.price_usd q = S754_infinity false /\
    db w' = Some (insert_one d "quote" (model_dump q)).
Proof.
  intros Hdb Hm H.
  assert (Hw : gt0 (QuoteRequest.weight_kg payload) = true).
  { destruct H as [[-> _] | [Hw _]]; [reflexivity | assumption]. }
  assert (Hv : gt0 (QuoteRequest.volume_cbm payload) = true).
  { destruct H as [[_ Hv] | [_ ->]]; [assumption | reflexivity]. }
  pose proof (create_quote_run payload w) as Hrun. cbv zeta in Hrun.
  rewrite (quote_new_accepts _ _ _ _ _ _ _ Hm Hw Hv (price_of_gt0 _ _ _ Hw Hv)
             (eta_of_pos _)), Hdb in Hrun.
  eexists. eexists. split; [exact Hrun|].
  cbn [Quote.price_usd db]. split; [|reflexivity].
  apply price_of_infinite. exact H.
Qed.

Lemma infinite_input_priced_infinite_witness :
  exists q w',
    create_quote (QuoteRequest.mk "Shanghai" "Rotterdam" "sea" (S754_infinity false) (of_int 2))
      sample_world = (Ok q, w') /\
    Quote.price_usd q = S754_infinity false.
Proof.
  destruct (infinite_input_priced_infinite
              (QuoteRequest.mk "Shanghai" "Rotterdam" "sea" (S754_infinity false) (of_int 2))
              sample_world empty_store eq_refl) as (q & w' & H & Hp & _).
  - cbn. auto.
  - left. split; [reflexivity | vm_compute; reflexivity].
  - exists q, w'. split; assumption.
Defined.

End PostOutcomes.

(** * Beyond the claims: the sort keeps ties in order *)

Section SortStable.
Context {K V : Type}.
Variable lt : K -> K -> option bool.
Variable rank : K -> Z.
Variable good : K -> Prop.
Hypothesis lt_good :
  forall a b, good a -> good b -> lt a b = Some (rank a <? rank b).

Local Abbreviation R := (@key_le K V rank).
Local Abbreviation good_item := (fun x : K * V => good (fst x)).
Local Abbreviation above := (fun x y : K * V => rank (fst y) < rank (fst x)).
Local Abbreviation ranked t := (fun x : K * V => rank (fst x) =? t).

Lemma filter_none {A} (f : A -> bool) (l : list A) :
  Forall (fun a => f a = false) l -> filter f l = [].
Proof.
  intros H. apply filter_nil_iff. apply Forall_forall. exact H.
Qed.

Lemma binarysort_stable (rest sorted : list (K * V)) :
  StronglySorted R sorted -> Forall good_item sorted -> Forall good_item rest ->
  exists r,
    binarysort lt sorted rest = (true, r) /\
    forall t, filter (ranked t) r = filter (ranked t) sorted ++ filter (ranked t) rest.
Proof.
  revert sorted. induction rest as [| pivot rest IH]; intros sorted Hs Hg Hr;
    cbn [binarysort].
  - exists sorted. split; [reflexivity|]. intros t. cbn [filter]. rewrite app_nil_r.
    reflexivity.
  - apply Forall_cons_iff in Hr as [Hp Hr].
    destruct (bisect_spec lt rank good lt_good (List.length sorted) (fst pivot) sorted 0
                (List.length sorted)) as (i & -> & Hlo & Hhi); try assumption; try lia.
    { constructor. }
    { rewrite skipn_all. constructor. }
    destruct (IH (firstn i sorted ++ pivot :: skipn i sorted)) as (r & -> & Hr').
    + apply insert_sorted; assumption.
    + apply Forall_app. split; [apply Forall_firstn; assumption|].
      constructor; [assumption | apply Forall_skipn; assumption].
    + assumption.
    + exists r. split; [reflexivity|]. intros t. rewrite Hr'.
      rewrite filter_app. cbn [filter].
      assert (Hsplit : filter (ranked t) sorted
                       = filter (ranked t) (firstn i sorted)
                         ++ filter (ranked t) (skipn i sorted)).
      { rewrite <- filter_app, firstn_skipn. reflexivity. }
      rewrite Hsplit.
      destruct (Z.eqb_spec (rank (fst pivot)) t) as [Et | Et].
      * rewrite (filter_none (ranked t) (skipn i sorted)).
        { rewrite app_nil_r, <- app_assoc. reflexivity. }
        eapply Forall_impl; [|exact Hhi]. cbv beta. intros y Hy.
        apply Z.eqb_neq. lia.
      * rewrite <- app_assoc. reflexivity.
Qed.

Lemma run_descending_strict (l : list (K * V)) (prev : K * V) :
  good (fst prev) -> Forall good_item l ->
  exists n, run_descending lt (fst prev) l = Some n /\ Sorted above (prev :: firstn n l).
Proof.
  revert prev. induction l as [| [k v] l IH]; intros prev Hp Hl; cbn [run_descending].
  - exists 0%nat. split; [reflexivity|]. repeat constructor.
  - apply Forall_cons_iff in Hl as [Hk Hl]. cbn [fst] in Hk.
    rewrite (lt_good _ _ Hk Hp).
    destruct (Z.ltb_spec (rank k) (rank (fst prev))) as [Hc | Hc].
    + destruct (IH (k, v) Hk Hl) as (n & Hn & Hs). cbn [fst] in Hn. rewrite Hn.
      exists (S n). split; [reflexivity|]. cbn [firstn]. constructor; [assumption|].
      constructor. cbn [fst]. lia.
    + exists 0%nat. split; [reflexivity|]. repeat constructor.
Qed.

(** A strictly descending run holds at most one item of each rank, so
    reversing it moves no item past an equal one. *)
Lemma strict_filter_rev (l : list (K * V)) (t : Z) :
  StronglySorted above l -> filter (ranked t) (rev l) = filter (ranked t) l.
Proof.
  intros Hs.
  assert (Hle : (List.length (filter (ranked t) l) <= 1)%nat).
  { induction Hs as [| x l Hl IH Hhd]; cbn [filter]; [cbn; lia|].
    destruct (Z.eqb_spec (rank (fst x)) t) as [Et | Et]; [|exact IH].
    rewrite (filter_none (ranked t) l); [cbn; lia|].
    eapply Forall_impl; [|exact Hhd]. cbv beta. intros y Hy. apply Z.eqb_neq. lia. }
  rewrite filter_rev.
  destruct (filter (ranked t) l) as [| x [| y m]]; [reflexivity | reflexivity |].
  cbn in Hle. lia.
Qed.

Lemma count_run_stable (a : list (K * V)) :
  Forall good_item a ->
  exists n descending,
    count_run lt a = Some (n, descending) /\
    forall t, filter (ranked t) (if descending then rev (firstn n a) else firstn n a)
              = filter (ranked t) (firstn n a).
Proof.
  intros Ha. destruct a as [| [k0 v0] [| [k1 v1] a]]; cbn [count_run].
  - exists 0%nat, false. split; reflexivity.
  - exists 1%nat, false. split; reflexivity.
  - apply Forall_cons_iff in Ha as [H0 Ha]. apply Forall_cons_iff in Ha as [H1 Ha].
    cbn [fst] in H0, H1. rewrite (lt_good _ _ H1 H0).
    destruct (Z.ltb_spec (rank k1) (rank k0)) as [Hc | Hc].
    + destruct (run_descending_strict a (k1, v1) H1 Ha) as (n & Hn & Hs).
      cbn [fst] in Hn. rewrite Hn. exists (2 + n)%nat, true.
      split; [reflexivity|]. intros t. apply strict_filter_rev.
      apply Sorted_StronglySorted.
      { intros x y z. lia. }
      cbn [firstn Nat.add]. constructor; [assumption|].
      constructor. cbn [fst]. lia.
    + destruct (run_ascending_sorted lt rank good lt_good a (k1, v1) H1 Ha) as (n & Hn & _).
      cbn [fst] in Hn. rewrite Hn. exists (2 + n)%nat, false. split; reflexivity.
Qed.

(** With comparable keys the sort is stable: the items of each rank keep
    their relative order. *)
Lemma sort_keyed_stable (a : list (K * V)) :
  Forall good_item a ->
  exists r,
    sort_keyed lt a = (true, r) /\
    forall t, filter (ranked t) r = filter (ranked t) a.
Proof.
  intros Ha. unfold sort_keyed.
  destruct (List.length a <? 2)%nat; [exists a; split; reflexivity|].
  destruct (count_run_sorted lt rank good lt_good a Ha) as (n & descending & E & Hs).
  destruct (count_run_stable a Ha) as (n' & descending' & E' & Hst).
  rewrite E in E'. injection E' as <- <-. rewrite E.
  destruct (binarysort_stable (skipn n a) (if descending then rev (firstn n a) else firstn n a))
    as (r & -> & Hr).
  - exact Hs.
  - destruct descending; [apply Forall_rev|]; apply Forall_firstn; assumption.
  - apply Forall_skipn; assumption.
  - exists r. split; [reflexivity|]. intros t.
    rewrite Hr, Hst, <- filter_app, firstn_skipn. reflexivity.
Qed.

End SortStable.

Lemma list_sort_stable {K V} (lt : K -> K -> option bool) (rank : K -> Z)
  (good : K -> Prop) (key : V -> K) (l : list V) :
  (forall a b, good a -> good b -> lt a b = Some (rank a <? rank b)) ->
  Forall (fun v => good (key v)) l ->
  forall t,
    filter (fun v => rank (key v) =? t) (snd (list_sort lt key l))
    = filter (fun v => rank (key v) =? t) l.
Proof.
  intros Hlt Hl t. unfold list_sort.
  set (kvs := map (fun v => (key v, v)) l).
  assert (Hgood : Forall (fun x : K * V => good (fst x)) kvs).
  { subst kvs. apply Forall_map. exact Hl. }
  destruct (sort_keyed_stable lt rank good Hlt kvs Hgood) as (r & E & Hst).
  rewrite E. cbn [snd].
  assert (Hmap : forall m : list (K * V),
             Forall (fun x => fst x = key (snd x)) m ->
             filter (fun v => rank (key v) =? t) (map snd m)
             = map snd (filter (fun x => rank (fst x) =? t) m)).
  { induction m as [| x m IH]; intros Hm; [reflexivity|].
    apply Forall_cons_iff in Hm as [Hx Hm]. cbn [map filter].
    rewrite <- Hx, (IH Hm). destruct (rank (fst x) =? t); reflexivity. }
  assert (Hkey : Forall (fun x : K * V => fst x = key (snd x)) kvs).
  { subst kvs. apply Forall_map. apply Forall_forall. reflexivity. }
  pose proof (sort_keyed_perm lt kvs true r E) as Hperm.
  rewrite (Hmap r (Permutation_Forall Hperm Hkey)), Hst, <- (Hmap kvs Hkey).
  subst kvs. rewrite map_map. cbn [snd]. rewrite map_id. reflexivity.
Qed.

(** * Beyond the claims: tracking what was booked *)

Section TrackingMore.

(** A stored event of [x] is enough for [get_tracking] to answer. *)
Lemma stored_event_is_answered (x : string) (w : World) :
  forall doc,
    (exists d, db w = Some d /\ In doc (find_collection d "trackingevent")) ->
    by_tracking_number x doc = true ->
    exists evs, get_tracking x w = (Ok (mkTrackingResponse x evs), w) /\ evs <> [].
Proof.
  intros doc (d & Hd & Hin) Hm.
  assert (Hne : filter (by_tracking_number x) (find_collection d "trackingevent") <> []).
  { intros E. rewrite filter_nil_iff in E. specialize (E doc Hin). congruence. }
  destruct (get_tracking_answers x w d Hd (firstn_nonempty 49 _ Hne)) as (evs & Hrun & Hp).
  exists evs. split; [exact Hrun|].
  intros ->. apply Permutation_sym, Permutation_nil in Hp.
  revert Hp. apply firstn_nonempty. exact Hne.
Qed.

Lemma event_dump_matches (e : TrackingEvent.t) :
  by_tracking_number (TrackingEvent.tracking_number e) (model_dump e) = true.
Proof. apply by_tracking_number_iff. reflexivity. Qed.

Lemma event_dump_dated (e : TrackingEvent.t) : has_timestamp (model_dump e).
Proof. exists (TrackingEvent.timestamp e). reflexivity. Qed.

(** X6. When every retrieved event carries a datetime, [get_tracking] answers
    with the retrieved events rearranged in ascending timestamp order. *)
Theorem tracking_ascending_when_dated (x : string) (w : World) (d : Database) :
  db w = Some d ->
  let retrieved :=
    firstn 50 (filter (by_tracking_number x) (find_collection d "trackingevent")) in
  retrieved <> [] ->
  Forall has_timestamp retrieved ->
  exists evs,
    get_tracking x w = (Ok (mkTrackingResponse x evs), w) /\
    Permutation retrieved evs /\
    StronglySorted (fun a b => timestamp_of a <= timestamp_of b) evs.
Proof. exact (get_tracking_sorted x w d). Qed.

Lemma tracking_ascending_when_dated_witness :
  exists evs,
    get_tracking "LGF-AAAAAAAA" (world_of dated_unordered)
    = (Ok (mkTrackingResponse "LGF-AAAAAAAA" evs), world_of dated_unordered) /\
    StronglySorted (fun a b => timestamp_of a <= timestamp_of b) evs.
Proof.
  edestruct (tracking_ascending_when_dated "LGF-AAAAAAAA" (world_of dated_unordered))
    as (evs & Hrun & _ & Hs).
  - reflexivity.
  - vm_compute. discriminate.
  - vm_compute. repeat constructor; eexists; reflexivity.
  - exists evs. split; assumption.
Defined.

(** X7. The sort is stable: when every retrieved event carries a datetime,
    the events of any one timestamp come back in the order in which they
    were retrieved. *)
Theorem tracking_ties_keep_order (x : string) (w : World) (d : Database) :
  db w = Some d ->
  let retrieved :=
    firstn 50 (filter (by_tracking_number x) (find_collection d "trackingevent")) in
  retrieved <> [] ->
  Forall has_timestamp retrieved ->
  exists evs,
    get_tracking x w = (Ok (mkTrackingResponse x evs), w) /\
    forall t, filter (fun e => timestamp_of e =? t) evs
              = filter (fun e => timestamp_of e =? t) retrieved.
Proof.
  intros Hdb retrieved Hne Hts. rewrite get_tracking_run, Hdb. fold retrieved.
  pose proof (list_sort_stable py_lt (fun v => match v with VDatetime t => t | _ => 0 end)
                (fun v => exists t, v = VDatetime t)
                (fun e => get e "timestamp") retrieved py_lt_datetime Hts) as Hst.
  destruct retrieved as [| e es]; [contradiction|].
  eexists. split; [reflexivity|]. exact Hst.
Qed.

Lemma tracking_ties_keep_order_witness :
  let x := "LGF-AAAAAAAA"%string in
  exists evs,
    get_tracking x (world_of tied_events)
    = (Ok (mkTrackingResponse x evs), world_of tied_events) /\
    filter (fun e => timestamp_of e =? 10) evs
    = [event_at x "Shanghai" 10; event_at x "Ningbo" 10] /\
    filter (fun e => timestamp_of e =? 20) evs
    = [event_at x "Rotterdam" 20; event_at x "Antwerp" 20] /\
    evs = [event_at x "Shanghai" 10; event_at x "Ningbo" 10;
           event_at x "Rotterdam" 20; event_at x "Antwerp" 20].
Proof.
  intros x.
  edestruct (tracking_ties_keep_order x (world_of tied_events)) as (evs & Hrun & Hst).
  - reflexivity.
  - vm_compute. discriminate.
  - vm_compute. repeat constructor; eexists; reflexivity.
  - exists evs. split; [exact Hrun|].
    split; [rewrite Hst; reflexivity|]. split; [rewrite Hst; reflexivity|].
    vm_compute in Hrun. injection Hrun as <-. reflexivity.
Defined.

Lemma events_dated_insert_other (w : World) (d : Database) (name : string) (doc : Document) :
  name <> "trackingevent" ->
  Forall has_timestamp (find_collection d "trackingevent") ->
  Forall has_timestamp (find_collection (insert_one d name doc) "trackingevent").
Proof.
  intros Hne H. rewrite find_collection_insert_other by assumption. exact H.
Qed.

(** X8. The service keeps every stored tracking event dated: if all
    tracking events in the store carry a datetime, they still do after any
    quote or booking request, whatever its outcome.  In such a store every
    tracking answer is in ascending timestamp order. *)
Theorem service_keeps_events_dated (w : World) :
  events_dated w ->
  (forall payload r w', create_quote payload w = (r, w') -> events_dated w') /\
  (forall booking r w', book_shipment booking w = (r, w') -> events_dated w') /\
  (forall x evs w', get_tracking x w = (Ok (mkTrackingResponse x evs), w') ->
     StronglySorted (fun a b => timestamp_of a <= timestamp_of b) evs).
Proof.
  intros Hinv. split; [|split].
  - intros payload [q | e] w' H d' Hd'.
    + apply create_quote_ok_inv in H as (d & Hd & _ & _ & Hw').
      rewrite Hw' in Hd'. injection Hd' as <-.
      apply (events_dated_insert_other w); [discriminate | apply Hinv; assumption].
    + apply create_quote_raise_inv in H. rewrite H in Hd'. apply Hinv. assumption.
  - intros booking [s | e] w' H d' Hd'.
    + apply book_shipment_ok_inv in H as (d & Hd & _ & _ & ->).
      cbn [db] in Hd'. injection Hd' as <-.
      rewrite find_collection_insert_same. apply Forall_app. split.
      * apply (events_dated_insert_other w); [discriminate | apply Hinv; assumption].
      * constructor; [eexists; reflexivity | constructor].
    + apply book_shipment_raise_inv in H. rewrite H in Hd'. apply Hinv. assumption.
  - intros x evs w' H. rewrite get_tracking_run in H.
    destruct (db w) as [d |] eqn:Hd; [|discriminate].
    destruct (firstn 50 _) as [| e es] eqn:E; [discriminate|].
    destruct (get_tracking_sorted x w d Hd) as (evs' & Hrun & _ & Hs).
    + rewrite E. discriminate.
    + apply Forall_firstn. 
      specialize (Hinv d Hd). rewrite Forall_forall in *. intros doc Hdoc.
      apply filter_In in Hdoc as [Hdoc _]. apply Hinv. exact Hdoc.
    + rewrite get_tracking_run, Hd, E in Hrun.
      rewrite Hrun in H. injection H as <- _. exact Hs.
Qed.

Lemma service_keeps_events_dated_witness :
  events_dated sample_world /\
  forall r w', book_shipment sample_booking sample_world = (r, w') -> events_dated w'.
Proof.
  assert (H0 : events_dated sample_world).
  { intros d Hd. injection Hd as <-. constructor. }
  split; [exact H0|].
  destruct (service_keeps_events_dated sample_world H0) as (_ & Hb & _).
  exact (Hb sample_booking).
Defined.

(** X9. A booked shipment can be tracked at once: after a successful
    booking, tracking the new number never answers 404; and when no stored
    event carried that number before, the answer is exactly the one event of
    the booking, stamped with the time of the booking. *)
Theorem booked_shipment_is_trackable
  (booking : BookShipmentRequest.t) (w w' : World) (s : Shipment.t) :
  book_shipment booking w = (Ok s, w') ->
  (exists evs,
     get_tracking (Shipment.tracking_number s) w'
     = (Ok (mkTrackingResponse (Shipment.tracking_number s) evs), w') /\ evs <> []) /\
  ((forall d doc, db w = Some d -> In doc (find_collection d "trackingevent") ->
                  lookup doc "tracking_number" <> Some (VStr (Shipment.tracking_number s))) ->
   get_tracking (Shipment.tracking_number s) w'
   = (Ok (mkTrackingResponse (Shipment.tracking_number s)
            [model_dump (TrackingEvent.mk (Shipment.tracking_number s) "created"
                           (Some (BookShipmentRequest.origin booking)) None (utcnow w))]),
      w')).
Proof.
  intros H. apply book_shipment_ok_inv in H as (d & Hd & -> & _ & ->).
  cbn [Shipment.tracking_number].
  set (event := TrackingEvent.mk (tracking_of w) "created"
                  (Some (BookShipmentRequest.origin booking)) None (utcnow w)).
  set (w' := mkWorld _ _ _ _ _).
  assert (Hcoll : forall d', db w' = Some d' ->
            filter (by_tracking_number (tracking_of w)) (find_collection d' "trackingevent")
            = filter (by_tracking_number (tracking_of w)) (find_collection d "trackingevent")
              ++ [model_dump event]).
  { intros d' Hd'. subst w'. cbn [db] in Hd'. injection Hd' as <-.
    rewrite find_collection_insert_same, find_collection_insert_other by discriminate.
    rewrite filter_app. cbn [filter].
    match goal with
    | |- context [if ?b then _ else _] =>
        replace b with true by (symmetry; apply (event_dump_matches event))
    end.
    reflexivity. }
  split.
  - destruct (stored_event_is_answered (tracking_of w) w' (model_dump event))
      as (evs & Hrun & Hne).
    + subst w'. cbn [db]. eexists. split; [reflexivity|].
      rewrite find_collection_insert_same. apply in_or_app. right. left. reflexivity.
    + apply (event_dump_matches event).
    + exists evs. split; assumption.
  - intros Hnone. rewrite get_tracking_run.
    assert (Hdb' : exists d', db w' = Some d') by (subst w'; cbn [db]; eauto).
    destruct Hdb' as (d' & Hd'). rewrite Hd', (Hcoll d' Hd').
    replace (filter (by_tracking_number (tracking_of w)) (find_collection d "trackingevent"))
      with (@nil Document).
    + reflexivity.
    + symmetry. apply filter_nil_iff. intros doc Hdoc.
      destruct (by_tracking_number (tracking_of w) doc) eqn:E; [|reflexivity].
      apply by_tracking_number_iff in E. apply (Hnone d doc Hd) in Hdoc. contradiction.
Qed.

Lemma booked_shipment_is_trackable_witness :
  exists s w' evs,
    book_shipment sample_booking sample_world = (Ok s, w') /\
    get_tracking (Shipment.tracking_number s) w'
    = (Ok (mkTrackingResponse (Shipment.tracking_number s) evs), w') /\
    List.length evs = 1%nat.
Proof.
  edestruct (booked_shipment_is_trackable sample_booking sample_world) as [_ H].
  - vm_compute. reflexivity.
  - eexists _, _, _. split; [vm_compute; reflexivity|]. split.
    + apply H. intros d doc Hd Hdoc. injection Hd as <-. destruct Hdoc.
    + reflexivity.
Defined.

Lemma tracking_of_repeats (w w1 : World) :
  rng w1 = rng w -> drawn w1 = (drawn w + 8)%nat ->
  (forall i, (i < 8)%nat ->
     (rng w (drawn w + 8 + i) mod 36 = rng w (drawn w + i) mod 36)%nat) ->
  tracking_of w1 = tracking_of w.
Proof.
  intros Hr Hd Hrep. unfold tracking_of, draws. do 2 f_equal.
  apply map_ext_in. intros i Hi. apply in_seq in Hi.
  rewrite Hr, Hd.
  change (List.length (list_ascii_of_string (ascii_uppercase ++ digits)%string)) with 36%nat.
  rewrite Hrep by lia. reflexivity.
Qed.

(** Two dated events already in order are left in order by the sort. *)
Lemma list_sort_pair_in_order (a b : Document) (ta tb : Z) :
  get a "timestamp" = VDatetime ta -> get b "timestamp" = VDatetime tb -> ta <= tb ->
  snd (list_sort py_lt (fun e => get e "timestamp") [a; b]) = [a; b].
Proof.
  intros Ha Hb Hle. unfold list_sort, sort_keyed.
  cbn [map List.length Nat.ltb Nat.leb count_run]. rewrite Ha, Hb. cbn [py_lt].
  replace (tb <? ta) with false by (symmetry; apply Z.ltb_ge; exact Hle).
  reflexivity.
Qed.

(** X10. Tracking numbers are not checked for uniqueness.  If the random
    source repeats its eight outcomes (modulo the 36 characters), the next
    well-formed booking, made when the clock has not gone back, succeeds
    with the same tracking number as the previous one, and the store then
    holds both bookings' events, one after the other.  When no event of that
    number was stored before, tracking it answers with exactly these two
    events, the earlier booking's first. *)
Theorem duplicate_tracking_number_accepted
  (first second : BookShipmentRequest.t) (w w1 : World) (s1 : Shipment.t) (later : Z) :
  book_shipment first w = (Ok s1, w1) ->
  (forall i, (i < 8)%nat ->
     (rng w (drawn w + 8 + i) mod 36 = rng w (drawn w + i) mod 36)%nat) ->
  In (BookShipmentRequest.mode second) ["air"; "sea"; "road"] ->
  gt0 (BookShipmentRequest.weight_kg second) = true ->
  gt0 (BookShipmentRequest.volume_cbm second) = true ->
  utcnow w <= later ->
  let x := Shipment.tracking_number s1 in
  let e1 := TrackingEvent.mk x "created"
              (Some (BookShipmentRequest.origin first)) None (utcnow w) in
  let e2 := TrackingEvent.mk x "created"
              (Some (BookShipmentRequest.origin second)) None later in
  exists s2 w2 d2,
    book_shipment second (mkWorld (db w1) later (rng w1) (drawn w1) (trace w1))
    = (Ok s2, w2) /\
    Shipment.tracking_number s2 = x /\
    db w2 = Some d2 /\
    (exists before,
       find_collection d2 "trackingevent" = before ++ [model_dump e1; model_dump e2]) /\
    ((forall d doc, db w = Some d -> In doc (find_collection d "trackingevent") ->
                    lookup doc "tracking_number" <> Some (VStr x)) ->
     get_tracking x w2
     = (Ok (mkTrackingResponse x [model_dump e1; model_dump e2]), w2)).
Proof.
  intros H1 Hrep Hm Hw Hv Hlater.
  apply book_shipment_ok_inv in H1 as (d & Hd & -> & _ & ->).
  cbn [Shipment.tracking_number db rng drawn trace].
  set (x := tracking_of w).
  set (e1 := TrackingEvent.mk x "created"
               (Some (BookShipmentRequest.origin first)) None (utcnow w)).
  set (d1 := insert_one (insert_one d "shipment" _) "trackingevent" (model_dump e1)).
  set (w1' := mkWorld (Some d1) later (rng w) (drawn w + 8)%nat _).
  set (e2 := TrackingEvent.mk x "created"
               (Some (BookShipmentRequest.origin second)) None later).
  destruct (book_shipment_succeeds second w1' d1 eq_refl Hm Hw Hv) as (s2 & w2 & H2).
  pose proof H2 as H2'.
  apply book_shipment_ok_inv in H2' as (d1' & Hd1 & Hs2 & _ & Hw2).
  cbn [db w1'] in Hd1. injection Hd1 as <-.
  assert (Htn : tracking_of w1' = x).
  { apply tracking_of_repeats; [reflexivity | reflexivity | exact Hrep]. }
  rewrite Htn in Hs2, Hw2. cbn [utcnow w1'] in Hw2. fold e2 in Hw2.
  set (d2 := insert_one (insert_one d1 "shipment" (model_dump s2)) "trackingevent"
               (model_dump e2)) in Hw2.
  assert (Hcoll : find_collection d2 "trackingevent"
                  = find_collection d "trackingevent" ++ [model_dump e1; model_dump e2]).
  { subst d2 d1.
    rewrite find_collection_insert_same, find_collection_insert_other by discriminate.
    rewrite find_collection_insert_same, find_collection_insert_other by discriminate.
    rewrite <- app_assoc. reflexivity. }
  exists s2, w2, d2. split; [exact H2|].
  split; [rewrite Hs2; reflexivity|].
  split; [rewrite Hw2; reflexivity|].
  split; [eexists; exact Hcoll|].
  intros Hnone. rewrite get_tracking_run.
  replace (db w2) with (Some d2) by (rewrite Hw2; reflexivity).
  rewrite Hcoll, filter_app.
  replace (filter (by_tracking_number x) (find_collection d "trackingevent"))
    with (@nil Document).
  - cbn [app filter].
    replace (by_tracking_number x (model_dump e1)) with true
      by (symmetry; apply (event_dump_matches e1)).
    replace (by_tracking_number x (model_dump e2)) with true
      by (symmetry; apply (event_dump_matches e2)).
    cbn [firstn].
    rewrite (list_sort_pair_in_order (model_dump e1) (model_dump e2) (utcnow w) later)
      by (reflexivity || exact Hlater).
    reflexivity.
  - symmetry. apply filter_nil_iff. intros doc Hdoc.
    destruct (by_tracking_number x doc) eqn:E; [|reflexivity].
    apply by_tracking_number_iff in E. apply (Hnone d doc Hd) in Hdoc. contradiction.
Qed.

Lemma duplicate_tracking_number_accepted_witness :
  let w := mkWorld (Some empty_store) 100 (fun _ => 0%nat) 0 [] in
  let x := "LGF-AAAAAAAA"%string in
  exists s1 w1 s2 w2,
    book_shipment sample_booking w = (Ok s1, w1) /\
    book_shipment return_booking (mkWorld (db w1) 160 (rng w1) (drawn w1) (trace w1))
    = (Ok s2, w2) /\
    Shipment.tracking_number s1 = x /\ Shipment.tracking_number s2 = x /\
    get_tracking x w2
    = (Ok (mkTrackingResponse x
             [model_dump (TrackingEvent.mk x "created"
                            (Some (BookShipmentRequest.origin sample_booking)) None 100);
              model_dump (TrackingEvent.mk x "created"
                            (Some (BookShipmentRequest.origin return_booking)) None 160)]),
       w2).
Proof.
  intros w x.
  edestruct (duplicate_tracking_number_accepted sample_booking return_booking w)
    with (later := 160) as (s2 & w2 & d2 & H2 & Htn & _ & _ & Hrun).
  - vm_compute. reflexivity.
  - intros i Hi. reflexivity.
  - cbn. auto.
  - vm_compute. reflexivity.
  - vm_compute. reflexivity.
  - cbn. lia.
  - eexists _, _, s2, w2. split; [vm_compute; reflexivity|].
    split; [exact H2|]. split; [reflexivity|]. split; [exact Htn|].
    apply Hrun. intros d doc Hd Hdoc. injection Hd as <-. destruct Hdoc.
Defined.

(** X11. Each POST handler writes only to its own collections: a successful
    quote adds one document to [quote] and leaves every other collection as
    it was; a successful booking adds one document to [shipment] and one to
    [trackingevent] and leaves every other collection as it was.  A quote
    draws nothing from the random source, a booking draws eight outcomes,
    and neither moves the clock. *)
Theorem handlers_write_only_their_collections
  (payload : QuoteRequest.t) (booking : BookShipmentRequest.t) (w : World) :
  (forall q w', create_quote payload w = (Ok q, w') ->
     exists d d', db w = Some d /\ db w' = Some d' /\
       find_collection d' "quote" = find_collection d "quote" ++ [model_dump q] /\
       (forall name, name <> "quote" -> find_collection d' name = find_collection d name) /\
       drawn w' = drawn w /\ utcnow w' = utcnow w) /\
  (forall s w', book_shipment booking w = (Ok s, w') ->
     exists d d', db w = Some d /\ db w' = Some d' /\
       find_collection d' "shipment" = find_collection d "shipment" ++ [model_dump s] /\
       List.length (find_collection d' "trackingevent")
       = S (List.length (find_collection d "trackingevent")) /\
       (forall name, name <> "shipment" -> name <> "trackingevent" ->
                     find_collection d' name = find_collection d name) /\
       drawn w' = (drawn w + 8)%nat /\ utcnow w' = utcnow w).
Proof.
  split.
  - intros q w' H. pose proof H as H'.
    apply create_quote_ok_inv in H' as (d & Hd & Hq & Hm & Hd').
    exists d, (insert_one d "quote" (model_dump q)).
    split; [exact Hd|]. split; [exact Hd'|].
    split; [apply find_collection_insert_same|].
    split.
    { intros name Hne. apply find_collection_insert_other. congruence. }
    rewrite create_quote_run in H. cbv zeta in H.
    destruct (Quote.new _ _ _ _ _ _ _); [|discriminate].
    rewrite Hd in H. injection H as _ <-. split; reflexivity.
  - intros s w' H. apply book_shipment_ok_inv in H as (d & Hd & -> & _ & ->).
    eexists d, _. split; [exact Hd|]. split; [reflexivity|].
    split.
    { rewrite find_collection_insert_other by discriminate.
      apply find_collection_insert_same. }
    split.
    { rewrite find_collection_insert_same, find_collection_insert_other by discriminate.
      rewrite length_app. cbn [List.length]. lia. }
    split; [|split; reflexivity].
    intros name H1 H2.
    rewrite !find_collection_insert_other by congruence. reflexivity.
Qed.

Lemma handlers_write_only_their_collections_witness :
  exists q w' d',
    create_quote sea_10_2 sample_world = (Ok q, w') /\ db w' = Some d' /\
    find_collection d' "shipment" = [] /\ find_collection d' "quote" = [model_dump q].
Proof.
  destruct (handlers_write_only_their_collections sea_10_2 sample_booking sample_world)
    as [Hq _].
  edestruct Hq as (d & d' & Hd & Hd' & Hquote & Hother & _).
  - vm_compute. reflexivity.
  - injection Hd as <-. eexists _, _, d'. split; [vm_compute; reflexivity|].
    split; [exact Hd'|]. split.
    + rewrite (Hother "shipment") by discriminate. reflexivity.
    + rewrite Hquote. reflexivity.
Defined.

End TrackingMore.

(** * Beyond the claims: the listing handlers *)

Section Listings.

Lemma filter_all {A} (f : A -> bool) (l : list A) :
  (forall a, f a = true) -> filter f l = l.
Proof.
  intros H. induction l as [| a l IH]; cbn [filter]; [reflexivity|].
  rewrite H, IH. reflexivity.
Qed.

Lemma list_shipments_run (limit : Z) (w : World) :
  list_shipments limit w =
  match db w with
  | None => (Raise StorageUnavailable, w)
  | Some d => (Ok (firstn (Z.to_nat limit) (find_collection d "shipment")), w)
  end.
Proof.
  unfold list_shipments, bind, get_documents, ret.
  destruct (db w) as [d |]; [|reflexivity].
  rewrite filter_all by reflexivity. reflexivity.
Qed.

Lemma list_quotes_run (c : Coercion) (limit : Z) (w : World) :
  list_quotes c limit w =
  match db w with
  | None => (Raise StorageUnavailable, w)
  | Some d =>
      (quotes_of_documents c (firstn (Z.to_nat limit) (find_collection d "quote")), w)
  end.
Proof.
  unfold list_quotes, bind, get_documents, lift.
  destruct (db w) as [d |]; [|reflexivity].
  rewrite filter_all by reflexivity.
  destruct (quotes_of_documents c _); reflexivity.
Qed.

Lemma quote_of_document_holds (c : Coercion) (doc : Document) (q : Quote.t) :
  lawful c -> holds_quote doc q -> valid_quote q -> quote_of_document c doc = Ok q.
Proof.
  intros (Hs & _ & Hf & _ & Hi & _) Hdoc (Hm & Hw & Hv & Hp & He).
  unfold quote_of_document.
  rewrite !Hdoc by (cbn; auto 10).
  destruct q as [o d m wt v p e]. cbn in Hm, Hw, Hv, Hp, He.
  change (get (model_dump (Quote.mk o d m wt v p e)) "origin") with (VStr o).
  change (get (model_dump (Quote.mk o d m wt v p e)) "destination") with (VStr d).
  change (get (model_dump (Quote.mk o d m wt v p e)) "mode") with (VStr m).
  change (get (model_dump (Quote.mk o d m wt v p e)) "weight_kg") with (VFloat wt).
  change (get (model_dump (Quote.mk o d m wt v p e)) "volume_cbm") with (VFloat v).
  change (get (model_dump (Quote.mk o d m wt v p e)) "price_usd") with (VFloat p).
  change (get (model_dump (Quote.mk o d m wt v p e)) "eta_days") with (VInt e).
  unfold quote_of_values, as_literal.
  rewrite !Hs, !Hf, Hi, (proj2 (is_literal_In modes m) Hm).
  apply quote_new_accepts; assumption.
Qed.

Lemma quotes_of_documents_hold (c : Coercion) (docs : list Document) (qs : list Quote.t) :
  lawful c -> Forall2 holds_quote docs qs -> Forall valid_quote qs ->
  quotes_of_documents c docs = Ok qs.
Proof.
  intros Hc H. induction H as [| doc q docs qs Hd H IH]; intros Hv; [reflexivity|].
  apply Forall_cons_iff in Hv as [Hq Hv]. cbn [quotes_of_documents].
  rewrite (quote_of_document_holds c doc q Hc Hd Hq), (IH Hv). reflexivity.
Qed.

Lemma Forall2_firstn {A B} (P : A -> B -> Prop) (n : nat) (l : list A) (l' : list B) :
  Forall2 P l l' -> Forall2 P (firstn n l) (firstn n l').
Proof.
  intros H. revert n. induction H; intros [| n]; cbn [firstn]; constructor; auto.
Qed.

(** X12. [list_quotes] reads back what the store holds: when each stored
    quote document holds, under the seven fields of [Quote], a quote that
    satisfies the schema, the answer is the first [limit] of those quotes in
    store order, whatever other fields (such as a store identifier) the
    documents carry. *)
Theorem list_quotes_reads_back
  (c : Coercion) (limit : Z) (w : World) (d : Database) (qs : list Quote.t) :
  lawful c ->
  0 <= limit ->
  db w = Some d ->
  Forall2 holds_quote (find_collection d "quote") qs ->
  Forall valid_quote qs ->
  list_quotes c limit w = (Ok (firstn (Z.to_nat limit) qs), w).
Proof.
  intros Hc _ Hd Hdocs Hqs. rewrite list_quotes_run, Hd.
  rewrite (quotes_of_documents_hold c _ (firstn (Z.to_nat limit) qs) Hc).
  - reflexivity.
  - apply Forall2_firstn. exact Hdocs.
  - apply Forall_firstn. exact Hqs.
Qed.

Lemma strict_lawful : lawful strict.
Proof. repeat split. Qed.

Lemma list_quotes_reads_back_witness :
  let q := Quote.mk "Shanghai" "Rotterdam" "sea" (of_int 10) (of_int 2) (of_int 98) 21 in
  let d := mkDatabase [("quote", [("_id", VStr "65f0") :: model_dump q])] 1 in
  let w := mkWorld (Some d) 0 sample_rng 0 [] in
  list_quotes strict 50 w = (Ok [q], w).
Proof.
  intros q d w.
  apply (list_quotes_reads_back strict 50 w d [q] strict_lawful ltac:(lia) eq_refl).
  - constructor; [|constructor].
    intros k Hk. cbn in Hk.
    repeat (destruct Hk as [<- | Hk]; [reflexivity|]). destruct Hk.
  - constructor; [|constructor].
    repeat split; try (vm_compute; reflexivity). cbn. auto.
Defined.

(** A quote that [create_quote] returns satisfies the schema. *)
Lemma created_quote_valid (payload : QuoteRequest.t) (w w' : World) (q : Quote.t) :
  create_quote payload w = (Ok q, w') -> valid_quote q.
Proof.
  rewrite create_quote_run. cbv zeta.
  destruct (Quote.new _ _ _ _ _ _ _) as [q0 | e] eqn:E; [|discriminate].
  destruct (db w); [|discriminate]. intros H. injection H as <- _.
  apply quote_new_inv in E as (-> & Hm & Hw & Hv).
  repeat split; cbn; try assumption.
  - apply price_of_gt0; assumption.
  - apply eta_of_pos.
Qed.

(** X13. A quote is listed after it is created: when the stored quote
    documents hold valid quotes [qs] and [create_quote] returns [q], a
    following [list_quotes] with a limit above their number answers
    [qs ++ [q]]. *)
Theorem created_quote_is_listed
  (c : Coercion) (limit : Z) (payload : QuoteRequest.t) (w w' : World)
  (d : Database) (qs : list Quote.t) (q : Quote.t) :
  lawful c ->
  db w = Some d ->
  Forall2 holds_quote (find_collection d "quote") qs ->
  Forall valid_quote qs ->
  create_quote payload w = (Ok q, w') ->
  Z.of_nat (List.length qs) < limit ->
  list_quotes c limit w' = (Ok (qs ++ [q]), w').
Proof.
  intros Hc Hd Hdocs Hqs Hrun Hlimit.
  pose proof (created_quote_valid payload w w' q Hrun) as Hvalid.
  apply create_quote_ok_inv in Hrun as (d0 & Hd0 & Hq & Hm & Hd').
  rewrite Hd in Hd0. injection Hd0 as <-.
  rewrite (list_quotes_reads_back c limit w' _ (qs ++ [q]) Hc ltac:(lia) Hd').
  - rewrite firstn_all2; [reflexivity|]. rewrite length_app. cbn [List.length]. lia.
  - rewrite find_collection_insert_same. apply Forall2_app; [exact Hdocs|].
    constructor; [|constructor]. intros k _. reflexivity.
  - apply Forall_app. split; [exact Hqs|]. constructor; [exact Hvalid | constructor].
Qed.

Lemma created_quote_is_listed_witness :
  exists q w',
    create_quote sea_10_2 sample_world = (Ok q, w') /\
    list_quotes strict 50 w' = (Ok [q], w').
Proof.
  eexists _, _. split; [vm_compute; reflexivity|].
  apply (created_quote_is_listed strict 50 sea_10_2 sample_world _ empty_store []
           _ strict_lawful eq_refl).
  - constructor.
  - constructor.
  - vm_compute. reflexivity.
  - cbn. lia.
Defined.

Lemma quote_new_result (origin destination : string) (mode : option string)
  (weight_kg volume_cbm price_usd : float) (eta_days : Z) :
  (exists q, Quote.new origin destination mode weight_kg volume_cbm price_usd eta_days = Ok q)
  \/ (exists fields,
        Quote.new origin destination mode weight_kg volume_cbm price_usd eta_days
        = Raise (ValidationError "Quote" fields)).
Proof.
  unfold Quote.new, validated. destruct (_ ++ _); eauto.
Qed.

Lemma quote_of_document_result (c : Coercion) (doc : Document) :
  (exists q, quote_of_document c doc = Ok q) \/
  (exists fields, quote_of_document c doc = Raise (ValidationError "Quote" fields)).
Proof.
  unfold quote_of_document, quote_of_values.
  destruct (as_str c _) as [o |]; [|right; eauto].
  destruct (as_str c _) as [d |]; [|right; eauto].
  destruct (as_literal modes _) as [m |]; [|right; eauto].
  destruct (as_float c _) as [wt |]; [|right; eauto].
  destruct (as_float c _) as [v |]; [|right; eauto].
  destruct (as_float c _) as [p |]; [|right; eauto].
  destruct (as_int c _) as [e |]; [|right; eauto].
  apply quote_new_result.
Qed.

(** A document with [None] under a field of [Quote], or without the field,
    is refused. *)
Lemma quote_of_document_none (c : Coercion) (doc : Document) (k : string) :
  lawful c -> In k quote_fields -> get doc k = VNone ->
  exists fields, quote_of_document c doc = Raise (ValidationError "Quote" fields).
Proof.
  intros (_ & Hs & _ & Hf & _ & Hi) Hk Hnone.
  destruct (quote_of_document_result c doc) as [(q & E) | H]; [|exact H].
  exfalso. unfold quote_of_document, quote_of_values in E.
  cbn in Hk.
  repeat (destruct Hk as [<- | Hk];
          [rewrite Hnone in E; rewrite ?Hs, ?Hf, ?Hi in E; cbn [as_literal] in E;
           repeat match type of E with
                  | context [match ?o with Some _ => _ | None => _ end] => destruct o
                  end; discriminate E|]).
  destruct Hk.
Qed.

Lemma quotes_of_documents_fail (c : Coercion) (docs : list Document) (doc : Document) :
  In doc docs ->
  (exists fields, quote_of_document c doc = Raise (ValidationError "Quote" fields)) ->
  exists fields, quotes_of_documents c docs = Raise (ValidationError "Quote" fields).
Proof.
  intros Hin Hbad. induction docs as [| d docs IH]; [destruct Hin|].
  cbn [quotes_of_documents].
  destruct (quote_of_document_result c d) as [(q & Eq) | (fields & Eq)]; rewrite Eq;
    [|eauto].
  destruct Hin as [-> | Hin].
  - destruct Hbad as (fields & E). congruence.
  - destruct (IH Hin) as (fields & ->). eauto.
Qed.

(** X14. One malformed document fails the whole quote listing: if any of
    the first [limit] stored quote documents lacks one of the seven fields
    of [Quote], or holds [None] under it, [list_quotes] raises a validation
    error and returns no quote at all.  [list_shipments] validates nothing:
    with a store configured it always answers, with the first [limit]
    stored documents as they are. *)
Theorem malformed_document_fails_quote_listing
  (c : Coercion) (limit : Z) (w : World) (d : Database) (doc : Document) (k : string) :
  lawful c ->
  0 <= limit ->
  db w = Some d ->
  (In doc (firstn (Z.to_nat limit) (find_collection d "quote")) ->
   In k ["origin"; "destination"; "mode"; "weight_kg"; "volume_cbm"; "price_usd"; "eta_days"] ->
   get doc k = VNone ->
   exists fields, list_quotes c limit w = (Raise (ValidationError "Quote" fields), w)) /\
  list_shipments limit w
  = (Ok (firstn (Z.to_nat limit) (find_collection d "shipment")), w).
Proof.
  intros Hc _ Hd. split.
  - intros Hin Hk Hnone. rewrite list_quotes_run, Hd.
    destruct (quotes_of_documents_fail c _ doc Hin
                (quote_of_document_none c doc k Hc Hk Hnone)) as (fields & ->).
    eauto.
  - rewrite list_shipments_run, Hd. reflexivity.
Qed.

Lemma malformed_document_fails_quote_listing_witness :
  let good := model_dump (Quote.mk "Shanghai" "Rotterdam" "sea" (of_int 10) (of_int 2)
                            (of_int 98) 21) in
  let bad : Document := [("origin", VStr "Shanghai"); ("destination", VStr "Rotterdam")] in
  let d := mkDatabase [("quote", [good; bad]); ("shipment", [bad])] 3 in
  let w := mkWorld (Some d) 0 sample_rng 0 [] in
  (exists fields, list_quotes strict 50 w = (Raise (ValidationError "Quote" fields), w)) /\
  list_shipments 50 w = (Ok [bad], w).
Proof.
  intros good bad d w.
  destruct (malformed_document_fails_quote_listing strict 50 w d bad "mode"
              strict_lawful ltac:(lia) eq_refl) as [Hq Hs].
  split; [|exact Hs].
  apply Hq.
  - right. left. reflexivity.
  - cbn. auto.
  - reflexivity.
Defined.

(** X15. A shipment is listed after it is booked: a [list_shipments] with a
    limit above the number of stored shipments, following a successful
    booking, answers the earlier shipment documents followed by the dump of
    the new shipment. *)
Theorem booked_shipment_is_listed
  (limit : Z) (booking : BookShipmentRequest.t) (w w' : World) (d : Database)
  (s : Shipment.t) :
  book_shipment booking w = (Ok s, w') ->
  db w = Some d ->
  Z.of_nat (List.length (find_collection d "shipment")) < limit ->
  list_shipments limit w' = (Ok (find_collection d "shipment" ++ [model_dump s]), w').
Proof.
  intros H Hd Hlimit. apply book_shipment_ok_inv in H as (d0 & Hd0 & -> & _ & ->).
  rewrite Hd in Hd0. injection Hd0 as <-.
  rewrite list_shipments_run. cbn [db].
  rewrite find_collection_insert_other by discriminate.
  rewrite find_collection_insert_same.
  rewrite firstn_all2; [reflexivity|]. rewrite length_app. cbn [List.length]. lia.
Qed.

Lemma booked_shipment_is_listed_witness :
  exists s w',
    book_shipment sample_booking sample_world = (Ok s, w') /\
    list_shipments 50 w' = (Ok [model_dump s], w').
Proof.
  eexists _, _. split; [vm_compute; reflexivity|].
  apply (booked_shipment_is_listed 50 sample_booking sample_world _ empty_store).
  - vm_compute. reflexivity.
  - reflexivity.
  - cbn. lia.
Defined.

End Listings.

(** * Beyond the claims: the diagnostics route *)

Section DiagnosticsFacts.

Lemma str_prefix_len (n : nat) (s : string) : (str_len (str_prefix n s) <= n)%nat.
Proof.
  revert n. induction s as [| c s IH]; intros n; cbn [str_prefix str_len]; [lia|].
  destruct (is_continuation c) eqn:E.
  - cbn [str_len]. rewrite E. apply IH.
  - destruct n as [| n]; [cbn; lia|]. cbn [str_len]. rewrite E.
    specialize (IH n). lia.
Qed.

Lemma str_prefix_is_prefix (n : nat) (s : string) :
  exists rest, s = (str_prefix n s ++ rest)%string.
Proof.
  revert n. induction s as [| c s IH]; intros n; cbn [str_prefix].
  - exists EmptyString. reflexivity.
  - destruct (is_continuation c).
    + destruct (IH n) as (rest & E). exists rest. cbn [append]. rewrite <- E. reflexivity.
    + destruct n as [| n].
      * exists (String c s). reflexivity.
      * destruct (IH n) as (rest & E). exists rest. cbn [append]. rewrite <- E.
        reflexivity.
Qed.

Lemma str_prefix_all (n : nat) (s : string) : (str_len s <= n)%nat -> str_prefix n s = s.
Proof.
  revert n. induction s as [| c s IH]; intros n H; cbn [str_prefix str_len] in *;
    [reflexivity|].
  destruct (is_continuation c).
  - rewrite IH by assumption. reflexivity.
  - destruct n as [| n]; [lia|]. rewrite IH by lia. reflexivity.
Qed.

Lemma str_prefix_count (n : nat) (s : string) :
  str_len (str_prefix n s) = Nat.min n (str_len s).
Proof.
  revert n. induction s as [| c s IH]; intros n; cbn [str_prefix str_len].
  - symmetry. apply Nat.min_0_r.
  - destruct (is_continuation c) eqn:E.
    + cbn [str_len]. rewrite E. apply IH.
    + destruct n as [| n]; [reflexivity|]. cbn [str_len]. rewrite E, IH.
      reflexivity.
Qed.

(** The cut falls between two characters. *)
Lemma str_prefix_boundary (n : nat) (s : string) :
  exists rest, s = (str_prefix n s ++ rest)%string /\ starts_character rest.
Proof.
  revert n. induction s as [| c s IH]; intros n; cbn [str_prefix].
  - exists EmptyString. split; [reflexivity | exact I].
  - destruct (is_continuation c) eqn:E.
    + destruct (IH n) as (rest & Hs & Hb). exists rest. split; [|exact Hb].
      cbn [append]. rewrite <- Hs. reflexivity.
    + destruct n as [| n].
      * exists (String c s). split; [reflexivity | exact E].
      * destruct (IH n) as (rest & Hs & Hb). exists rest. split; [|exact Hb].
        cbn [append]. rewrite <- Hs. reflexivity.
Qed.

(** [s[:n]] is the only way to cut [min n (len s)] whole characters off the
    front of [s]. *)
Lemma str_prefix_unique (n : nat) (s text rest : string) :
  s = (text ++ rest)%string ->
  str_len text = Nat.min n (str_len s) ->
  starts_character rest ->
  text = str_prefix n s.
Proof.
  revert n text. induction s as [| c s IH]; intros n text Hs Hlen Hrest.
  - destruct text; [reflexivity | discriminate].
  - destruct text as [| c' text]; cbn [append] in Hs.
    + subst rest. cbn [starts_character] in Hrest.
      cbn [str_len str_prefix] in *. rewrite Hrest in *.
      destruct n as [| n]; [reflexivity | discriminate].
    + injection Hs as <- Hs. cbn [str_len str_prefix] in *.
      destruct (is_continuation c).
      * f_equal. apply IH; assumption.
      * destruct n as [| n]; [discriminate|]. f_equal.
        apply IH; [assumption | | assumption]. cbn [Nat.min] in Hlen. congruence.
Qed.

(** X16. The diagnostics report lists the first 10 names of the store's
    listing and nothing else.  When a store is configured, its name can be
    read and the listing succeeds, [collections] is exactly the first 10
    names, all of them when there are no more than 10, and the [database]
    line reads "✅ Connected & Working"; in every other case [collections]
    is empty. *)
Theorem diagnostics_collections_bounded (p : Probe) (w : World) :
  exists r,
    test_database p w = (Ok r, w) /\
    (List.length (Diagnostics.collections r) <= 10)%nat /\
    (forall names,
       db w <> None -> (forall message, db_name p <> Failing message) ->
       listing p = inr names ->
       Diagnostics.collections r = firstn 10 names /\
       List.length (Diagnostics.collections r) = Nat.min 10 (List.length names) /\
       ((List.length names <= 10)%nat -> Diagnostics.collections r = names) /\
       Diagnostics.database r = "✅ Connected & Working") /\
    (Diagnostics.collections r <> [] ->
     db w <> None /\ (forall message, db_name p <> Failing message) /\
     exists names, listing p = inr names /\ Diagnostics.collections r = firstn 10 names).
Proof.
  unfold test_database.
  destruct (db w) as [d |].
  - destruct (db_name p) as [| n | message] eqn:En.
    + destruct (listing p) as [message | names].
      * eexists. split; [reflexivity|]. cbn. split; [lia|].
        split; [discriminate | contradiction].
      * eexists. split; [reflexivity|]. cbn [Diagnostics.collections
          Diagnostics.database Diagnostics.set_database Diagnostics.set_collections].
        split; [apply firstn_le_length|]. split.
        -- intros names' _ _ E. injection E as <-.
           split; [reflexivity|]. split; [apply length_firstn|].
           split; [apply firstn_all2 | reflexivity].
        -- intros _. split; [discriminate|]. split; [discriminate|]. eauto.
    + destruct (listing p) as [message | names].
      * eexists. split; [reflexivity|]. cbn. split; [lia|].
        split; [discriminate | contradiction].
      * eexists. split; [reflexivity|]. cbn [Diagnostics.collections
          Diagnostics.database Diagnostics.set_database Diagnostics.set_collections].
        split; [apply firstn_le_length|]. split.
        -- intros names' _ _ E. injection E as <-.
           split; [reflexivity|]. split; [apply length_firstn|].
           split; [apply firstn_all2 | reflexivity].
        -- intros _. split; [discriminate|]. split; [discriminate|]. eauto.
    + eexists. split; [reflexivity|]. cbn. split; [lia|]. split.
      * intros names _ H. exfalso. apply (H message). reflexivity.
      * contradiction.
  - eexists. split; [reflexivity|]. cbn. split; [lia|]. split.
    + intros names H. contradiction.
    + contradiction.
Qed.

Lemma diagnostics_collections_bounded_witness :
  exists r,
    test_database twelve_collections sample_world = (Ok r, sample_world) /\
    Diagnostics.collections r
    = ["quote"; "shipment"; "trackingevent"; "shipper"; "invoice"; "carrier";
       "port"; "tariff"; "customs"; "audit"] /\
    Diagnostics.database r = "✅ Connected & Working".
Proof.
  destruct (diagnostics_collections_bounded twelve_collections sample_world)
    as (r & Hrun & _ & Hlisted & _).
  destruct (Hlisted _ ltac:(discriminate) ltac:(discriminate) eq_refl)
    as (Hc & _ & _ & Hd).
  exists r. split; [exact Hrun|]. split; [exact Hc | exact Hd].
Defined.

(** X17. The diagnostics route always answers, with [backend] "✅ Running"
    and the world untouched; its [database] line is never the initial
    "❌ Not Available", and it reads "⚠️  Available but not initialized"
    exactly when no store is configured, in which case no URL state or name
    is reported and the status stays "Not Connected". *)
Theorem diagnostics_status (p : Probe) (w : World) :
  exists r,
    test_database p w = (Ok r, w) /\
    Diagnostics.backend r = "✅ Running" /\
    Diagnostics.database r <> "❌ Not Available" /\
    (db w = None <-> Diagnostics.database r = "⚠️  Available but not initialized") /\
    (db w = None ->
     Diagnostics.database_url r = None /\ Diagnostics.database_name r = None /\
     Diagnostics.connection_status r = "Not Connected" /\ Diagnostics.collections r = []) /\
    (Diagnostics.connection_status r = "Connected" <->
     db w <> None /\ forall message, db_name p <> Failing message).
Proof.
  unfold test_database.
  destruct (db w) as [d |].
  - destruct (db_name p) as [| n | message] eqn:En.
    + destruct (listing p) as [message | names];
        (eexists; split; [reflexivity|]; cbn;
         split; [reflexivity|]; split; [discriminate|];
         split; [split; discriminate|]; split; [discriminate|];
         split; [intros _; split; discriminate | reflexivity]).
    + destruct (listing p) as [message | names];
        (eexists; split; [reflexivity|]; cbn;
         split; [reflexivity|]; split; [discriminate|];
         split; [split; discriminate|]; split; [discriminate|];
         split; [intros _; split; discriminate | reflexivity]).
    + eexists. split; [reflexivity|]. cbn.
      split; [reflexivity|]. split; [discriminate|].
      split; [split; discriminate|]. split; [discriminate|].
      split; [discriminate|]. intros [_ H]. exfalso. apply (H message). reflexivity.
  - eexists. split; [reflexivity|]. cbn.
    split; [reflexivity|]. split; [discriminate|].
    split; [split; reflexivity|]. split; [auto|].
    split; [discriminate|]. intros [H _]. contradiction.
Qed.

(** X18. An error reported by the diagnostics route is cut to its first 50
    characters: when the store is configured, its name can be read and the
    listing raises, the [database] line is "⚠️  Connected but Error: "
    followed by [str(e)[:50]].  That text is the message up to a cut between
    two characters, it counts 50 characters or the whole message if that is
    shorter, and no other text does; the report lists no collection. *)
Theorem diagnostics_error_truncated
  (p : Probe) (w : World) (d : Database) (message : string) :
  db w = Some d ->
  (forall m, db_name p <> Failing m) ->
  listing p = inl message ->
  exists r text rest,
    test_database p w = (Ok r, w) /\
    Diagnostics.database r = ("⚠️  Connected but Error: " ++ text)%string /\
    text = str_prefix 50 message /\
    message = (text ++ rest)%string /\ starts_character rest /\
    str_len text = Nat.min 50 (str_len message) /\
    (forall text' rest',
       message = (text' ++ rest')%string -> starts_character rest' ->
       str_len text' = Nat.min 50 (str_len message) -> text' = text) /\
    ((str_len message <= 50)%nat -> text = message) /\
    Diagnostics.collections r = [].
Proof.
  intros Hd Hname Hlist. unfold test_database. rewrite Hd, Hlist.
  destruct (str_prefix_boundary 50 message) as (rest & Hrest & Hb).
  destruct (db_name p) as [| n | m] eqn:En; [| | exfalso; apply (Hname m); reflexivity];
    (eexists _, (str_prefix 50 message), rest; split; [reflexivity|];
     split; [reflexivity|]; split; [reflexivity|]; split; [exact Hrest|];
     split; [exact Hb|]; split; [apply str_prefix_count|];
     split; [intros text' rest' H1 H2 H3; exact (str_prefix_unique 50 _ _ _ H1 H3 H2)|];
     split; [apply str_prefix_all | reflexivity]).
Qed.

Lemma diagnostics_error_truncated_witness :
  (str_len refused = 75)%nat /\
  exists r,
    test_database failing_listing sample_world = (Ok r, sample_world) /\
    Diagnostics.database r
    = "⚠️  Connected but Error: connexion refusée par l’hôte db.logiflow.example:2".
Proof.
  split; [reflexivity|].
  destruct (diagnostics_error_truncated failing_listing sample_world empty_store refused)
    as (r & text & rest & Hrun & Hdb & -> & _).
  - reflexivity.
  - intros m. discriminate.
  - reflexivity.
  - exists r. split; [exact Hrun|]. rewrite Hdb. reflexivity.
Defined.

End DiagnosticsFacts.

(** * Beyond the claims: when the retrieval order survives *)

Section RetrievalOrder.

Lemma py_lt_none (a : value) : py_lt a VNone = None.
Proof. destruct a; reflexivity. Qed.

Lemma list_sort_undated_first (e : Document) (es : list Document) :
  get e "timestamp" = VNone ->
  snd (list_sort py_lt (fun d => get d "timestamp") (e :: es)) = e :: es.
Proof.
  intros Hnone. unfold list_sort, sort_keyed.
  destruct es as [| e' es]; [reflexivity|].
  cbn [map List.length Nat.ltb Nat.leb count_run]. rewrite Hnone, py_lt_none.
  cbn [snd map]. rewrite map_map. cbn [snd]. rewrite map_id. reflexivity.
Qed.

(** X19. When the first retrieved event has no timestamp (the key is absent
    or [None]), the sort stops at its first comparison, before moving
    anything, and [get_tracking] answers with the events exactly in
    retrieval order; so does a retrieval of a single event. *)
Theorem undated_first_keeps_retrieval_order
  (x : string) (w : World) (d : Database) (e : Document) (es : list Document) :
  db w = Some d ->
  firstn 50 (filter (by_tracking_number x) (find_collection d "trackingevent")) = e :: es ->
  get e "timestamp" = VNone \/ es = [] ->
  get_tracking x w = (Ok (mkTrackingResponse x (e :: es)), w).
Proof.
  intros Hd Hret Hcase. rewrite get_tracking_run, Hd, Hret.
  destruct Hcase as [Hnone | ->].
  - rewrite (list_sort_undated_first e es Hnone). reflexivity.
  - reflexivity.
Qed.

Lemma undated_first_keeps_retrieval_order_witness :
  let x := "LGF-AAAAAAAA"%string in
  let events := [event_without_timestamp x; event_doc x (VDatetime 30);
                 event_doc x (VDatetime 10)] in
  get_tracking x (world_of events) = (Ok (mkTrackingResponse x events), world_of events).
Proof.
  intros x events.
  apply (undated_first_keeps_retrieval_order x (world_of events) _
           (event_without_timestamp x)
           [event_doc x (VDatetime 30); event_doc x (VDatetime 10)] eq_refl).
  - reflexivity.
  - left. reflexivity.
Defined.

End RetrievalOrder.
